(** * metrics-script: the streaming response interpreter and the batch driver

    A shallow embedding of [main.go]: the JSON event reducer of
    [sendRequest], the numeric extraction it performs with Go's [regexp]
    and [strconv] packages, the file enumeration of [main] and its
    per-file loop over the Excel workbook. *)

From Stdlib Require Import ZArith QArith Lia Bool List Ascii String.
From Stdlib Require Import Floats.SpecFloat.
From stdpp Require Import gmap strings list fin_maps.

Local Open Scope string_scope.
Local Open Scope Z_scope.

Local Set Warnings "-register-all".

(** ** Go strings

    A Go [string] is a sequence of bytes; it is modelled by [string], whose
    characters are the bytes. *)

Module Strings.

(** [strings.HasPrefix]. *)
Fixpoint HasPrefix (s prefix : string) : bool :=
  match prefix, s with
  | EmptyString, _ => true
  | String p prefix', String c s' => Ascii.eqb c p && HasPrefix s' prefix'
  | String _ _, EmptyString => false
  end.

(** [strings.Contains(s, substr)]: [substr] occurs at some offset of [s]. *)
Fixpoint Contains (s substr : string) : bool :=
  HasPrefix s substr ||
  match s with
  | EmptyString => false
  | String _ s' => Contains s' substr
  end.

End Strings.

(** ** Go's [regexp] package, for the patterns of the program

    The two patterns of [sendRequest] are built from a character class, a
    literal, concatenation, [?] and [+] over a class.  Matching follows the
    leftmost-first (Perl-like) rule of the package: the matcher explores the
    alternatives in priority order and keeps the first that succeeds, a
    greedy [+] or [?] preferring to consume more. *)

Module Regexp.

Inductive regex : Type :=
| Class (p : ascii -> bool)        (* a character class such as [\d] *)
| Lit (c : ascii)                  (* an escaped literal such as [\.] *)
| Cat (r1 r2 : regex)              (* r1 r2 *)
| Opt (r : regex)                  (* (r)? *)
| Plus (p : ascii -> bool).        (* c+ for a class c *)

(** [\d] is ASCII-only in Go: the bytes '0' to '9'. *)
Definition digit (c : ascii) : bool :=
  let n := nat_of_ascii c in (48 <=? n)%nat && (n <=? 57)%nat.

(** Greedy iteration of a class: consume while the class holds, and on
    failure of the continuation give characters back one at a time. *)
Fixpoint star_class {A} (p : ascii -> bool) (s : string)
    (k : string -> option A) : option A :=
  match s with
  | String c s' =>
      if p c then
        match star_class p s' k with
        | Some r => Some r
        | None => k s
        end
      else k s
  | EmptyString => k s
  end.

(** [run r s k] matches [r] at the start of [s] and hands the rest of the
    input to the continuation [k]; the first success in priority order is
    the result. *)
Fixpoint run {A} (r : regex) (s : string) (k : string -> option A) : option A :=
  match r with
  | Class p =>
      match s with
      | String c s' => if p c then k s' else None
      | EmptyString => None
      end
  | Lit a =>
      match s with
      | String c s' => if Ascii.eqb c a then k s' else None
      | EmptyString => None
      end
  | Cat r1 r2 => run r1 s (fun s' => run r2 s' k)
  | Opt r1 =>
      match run r1 s k with
      | Some x => Some x
      | None => k s
      end
  | Plus p =>
      match s with
      | String c s' => if p c then star_class p s' k else None
      | EmptyString => None
      end
  end.

(** The first [n] bytes of [s]. *)
Fixpoint take (n : nat) (s : string) : string :=
  match n, s with
  | S n', String c s' => String c (take n' s')
  | _, _ => EmptyString
  end.

(** The text matched at the start of [s], if the pattern matches there. *)
Definition match_here (r : regex) (s : string) : option string :=
  match run r s Some with
  | Some rest => Some (take (String.length s - String.length rest) s)
  | None => None
  end.

(** Leftmost match: try every start offset from the left. *)
Fixpoint find (r : regex) (s : string) : option string :=
  match match_here r s with
  | Some m => Some m
  | None =>
      match s with
      | String _ s' => find r s'
      | EmptyString => None
      end
  end.

(** [Regexp.FindString]: the text of the leftmost match, or the empty
    string when there is none. *)
Definition FindString (r : regex) (s : string) : string :=
  match find r s with
  | Some m => m
  | None => ""
  end.

(** [Regexp.FindAllString(s, -1)]: the successive non-overlapping
    matches, left to right.  [skip] counts the bytes of the current match
    still to be stepped over before the search resumes.  (An empty match
    advances by one byte; the patterns of the program never match the
    empty string.) *)
Fixpoint find_all (r : regex) (skip : nat) (s : string) : list string :=
  match skip with
  | S n =>
      match s with
      | String _ s' => find_all r n s'
      | EmptyString => []
      end
  | O =>
      match match_here r s with
      | Some m =>
          m :: match s with
               | String _ s' => find_all r (Nat.pred (String.length m)) s'
               | EmptyString => []
               end
      | None =>
          match s with
          | String _ s' => find_all r 0 s'
          | EmptyString => []
          end
      end
  end.

Definition FindAllString (r : regex) (s : string) : list string :=
  find_all r 0 s.

End Regexp.

Import Regexp.

(** [regexp.MustCompile(`\d+(\.\d+)?`)] *)
Definition re_decimal : regex := Cat (Plus digit) (Opt (Cat (Lit ".") (Plus digit))).

(** [regexp.MustCompile(`\d+`)] *)
Definition re_integer : regex := Plus digit.

(** ** Numeric substrings, read directly

    The numeric substring that starts a text, in the words of the
    patterns: one or more digits, for [re_decimal] optionally followed by a
    decimal point and more digits. *)

Module Scan.

(** The longest prefix of [s] made of characters of the class [p]. *)
Fixpoint take_class (p : ascii -> bool) (s : string) : string :=
  match s with
  | String c s' => if p c then String c (take_class p s') else ""
  | EmptyString => ""
  end.

(** What follows that prefix. *)
Fixpoint skip_class (p : ascii -> bool) (s : string) : string :=
  match s with
  | String c s' => if p c then skip_class p s' else s
  | EmptyString => ""
  end.

(** Whether [s] contains a digit. *)
Fixpoint has_digit (s : string) : bool :=
  match s with
  | String c s' => digit c || has_digit s'
  | EmptyString => false
  end.

(** One or more digits at the start of [s]: the digits and the rest. *)
Definition integer_at (s : string) : option (string * string) :=
  match s with
  | String c s' =>
      if digit c then Some (String c (take_class digit s'), skip_class digit s')
      else None
  | EmptyString => None
  end.

(** A decimal point and one or more digits at the start of [s], or
    nothing: the text taken and the rest. *)
Definition fraction_at (s : string) : string * string :=
  match s with
  | String c (String d s') =>
      if Ascii.eqb c "." && digit d
      then (String c (String d (take_class digit s')), skip_class digit s')
      else ("", s)
  | _ => ("", s)
  end.

(** One or more digits, optionally followed by a decimal point and more
    digits, at the start of [s]. *)
Definition decimal_at (s : string) : option (string * string) :=
  match integer_at s with
  | Some (int, rest) =>
      let '(frac, rest') := fraction_at rest in Some (int ++ frac, rest')
  | None => None
  end.

(** The shape of a decimal numeral: digits, or digits, a point, digits,
    with at least one digit on each side. *)
Definition is_decimal (m : string) : bool :=
  match integer_at m with
  | Some (_, EmptyString) => true
  | Some (_, String c frac) =>
      Ascii.eqb c "." &&
      match integer_at frac with
      | Some (_, EmptyString) => true
      | _ => false
      end
  | None => false
  end.

End Scan.

Import Scan.

(** ** [float64] and [strconv.ParseFloat]

    A [float64] is an IEEE 754 binary64 value, modelled by the Standard
    Library's [spec_float] with precision 53 and maximal exponent 1024. *)

Definition float64 : Type := spec_float.

Definition prec64 : Z := 53.
Definition emax64 : Z := 1024.

(** The literal [0] of the program, positive zero. *)
Definition f64_zero : float64 := S754_zero false.

(** The binary64 value nearest to the integer [n] (exact up to 2^53). *)
Definition f64_of_Z (n : Z) : float64 := binary_normalize prec64 emax64 n 0 false.

(** The exact rational value of a finite [float64]. *)
Definition f64_value (f : float64) : option Q :=
  match f with
  | S754_zero _ => Some (0 # 1)
  | S754_finite s m e =>
      let n := if s then Z.neg m else Z.pos m in
      Some (Qred (if 0 <=? e then (n * 2 ^ e) # 1 else n # Z.to_pos (2 ^ (- e))))
  | S754_infinity _ | S754_nan => None
  end.

(** [x >= 0] on [float64]: false on NaN, true on both zeros. *)
Definition f64_nonneg (f : float64) : bool := SFleb f64_zero f.

Module Strconv.

Inductive NumError : Type := ErrSyntax | ErrRange.

Definition digit_val (c : ascii) : Z := Z.of_nat (nat_of_ascii c) - 48.

(** Read the longest run of decimal digits at the start of [s]: the digits
    are appended to the mantissa [mant], [n] counts them, and the rest of
    the input is returned. *)
Fixpoint read_digits (mant : Z) (n : nat) (s : string) : Z * nat * string :=
  match s with
  | String c s' =>
      if digit c then read_digits (10 * mant + digit_val c) (S n) s'
      else (mant, n, s)
  | EmptyString => (mant, n, s)
  end.

(** The binary64 nearest to [mant / 10^frac], ties to even, for
    [0 <= mant], with the sign [neg]; an infinity when the value is out of
    range. *)
Definition round_decimal (neg : bool) (mant : Z) (frac : nat) : float64 :=
  match mant with
  | Z0 => S754_zero neg
  | _ =>
      let '(mz, ez, lz) :=
        SFdiv_core_binary prec64 emax64 mant 0 (10 ^ Z.of_nat frac) 0 in
      binary_round_aux prec64 emax64 neg mz ez lz
  end.

(** [strconv.ParseFloat(s, 64)] on the decimal numerals without exponent,
    [[+-] digits [. digits]] with at least one digit; the strings the
    program converts are of this form (see [decimal_match_shape] and
    [integer_match_shape]).  The result is correctly rounded; a value too
    large for binary64 gives an infinity with [ErrRange], a value too
    small gives zero without error.  Exponents, underscores, hexadecimal
    literals, [inf] and [nan], which Go also accepts, are outside this
    model and are reported as [ErrSyntax] here. *)
Definition ParseFloat (s : string) : float64 * option NumError :=
  let '(neg, body) :=
    match s with
    | String c body =>
        if Ascii.eqb c "+" then (false, body)
        else if Ascii.eqb c "-" then (true, body)
        else (false, s)
    | EmptyString => (false, s)
    end in
  let '(m1, n1, rest) := read_digits 0 0 body in
  let '(m2, n2, rest') :=
    match rest with
    | String c after =>
        if Ascii.eqb c "." then read_digits m1 0 after else (m1, O, rest)
    | EmptyString => (m1, O, rest)
    end in
  match (n1 + n2)%nat, rest' with
  | S _, EmptyString =>
      match round_decimal neg m2 n2 with
      | S754_infinity sg => (S754_infinity sg, Some ErrRange)
      | f => (f, None)
      end
  | _, _ => (f64_zero, Some ErrSyntax)
  end.

End Strconv.

(** [toFloat] of main.go. *)
Definition toFloat (s : string) : float64 :=
  match Strconv.ParseFloat s with
  | (num, None) => num
  | (_, Some _) => f64_zero
  end.

(** ** Decoded JSON and Go interface values

    [encoding/json] decodes into [interface{}] as nil, bool, float64,
    string, []interface{} or map[string]interface{}. *)

Inductive json : Type :=
| JNull                                   (* the nil interface *)
| JBool (b : bool)
| JNumber (f : float64)
| JString (s : string)
| JArray (elems : list json)
| JObject (fields : list (string * json)).

(** One decoded event, [map[string]interface{}]. *)
Abbreviation event := (gmap string json).

(** [event[key]]: the nil interface when the key is absent (or maps to a
    JSON null, which decodes to nil). *)
Definition index (ev : event) (key : string) : json :=
  match ev !! key with
  | Some v => v
  | None => JNull
  end.

(** [v == "lit"] between an interface value and a string constant: true
    exactly when the dynamic type is string and the texts agree. *)
Definition iface_eq_string (v : json) (lit : string) : bool :=
  match v with
  | JString s => String.eqb s lit
  | _ => false
  end.

(** ** Outcomes of Go code: a value, a returned [error], or a panic

    A panic is not recovered anywhere in the program: it unwinds through
    every caller and ends the process. *)

Inductive error : Type :=
| ErrMarshal                 (* "failed to marshal request body" *)
| ErrNewRequest              (* "failed to create request" *)
| ErrSend                    (* "failed to send POST request" *)
| ErrStatus (code : Z)       (* "received non-OK response" *)
| ErrStream.                 (* "error reading JSON stream" *)

(** How an iteration of the loop of [main] ends: the loop goes on to the
    next file, or the process has died in a panic. *)
Inductive control : Type := Continue | Crash.

Inductive result (A : Type) : Type :=
| Ok (a : A)
| Err (e : error)
| Panic.

Arguments Ok {A} a.
Arguments Err {A} e.
Arguments Panic {A}.

Definition bind {A B} (r : result A) (k : A -> result B) : result B :=
  match r with
  | Ok a => k a
  | Err e => Err e
  | Panic => Panic
  end.

Notation "'let*' x ':=' r 'in' k" := (bind r (fun x => k))
  (at level 10, x name, r at level 100, k at level 200).

(** [v.(string)], the single-value type assertion: panics unless [v] holds
    a string. *)
Definition assert_string (v : json) : result string :=
  match v with
  | JString s => Ok s
  | _ => Panic
  end.

(** [s, ok := v.(string)], the comma-ok form: never panics. *)
Definition assert_string_ok (v : json) : string * bool :=
  match v with
  | JString s => (s, true)
  | _ => ("", false)
  end.

(** ** The metrics record and the reducer of [sendRequest] *)

Record Metrics : Type := {
  InitialCoverage : float64;
  FinalCoverage : float64;
  LinesCovered : float64;
  TotalLines : float64;
  TestAdded : float64
}.

(** [var initialCoverage, finalCoverage, linesCovered, totalLines, testAdded
    float64]: the five locals, all zero. *)
Definition zero_metrics : Metrics :=
  {| InitialCoverage := f64_zero; FinalCoverage := f64_zero;
     LinesCovered := f64_zero; TotalLines := f64_zero; TestAdded := f64_zero |}.

Definition sentinel : string := "Coverage did not increase".

(** The block that [sendRequest] repeats for [linesCovered], [totalLines]
    and [testAdded] (lines 246-258, 260-272, 274-286), on the current value
    [cur] of the local:
<<
    coverageStr, ok = event[key].(string)
    if !ok || coverageStr == "" { cur = 0 }
    match = re.FindString(event[key].(string))
    if match != "" { cur = toFloat(match) }
>>  *)
Definition summary_field (ev : event) (key : string) (cur : float64)
  : result float64 :=
  let '(coverageStr, ok) := assert_string_ok (index ev key) in
  let cur := if negb ok || String.eqb coverageStr "" then f64_zero else cur in
  let* text := assert_string (index ev key) in
  let match_ := FindString re_integer text in
  Ok (if negb (String.eqb match_ "") then toFloat match_ else cur).

(** [numbers[len(numbers)-1]] *)
Definition last_of (numbers : list string) : string :=
  nth (length numbers - 1) numbers "".

(** [extractNumbers] of main.go (the program does not call it). *)
Definition extractNumbers (s : string) : string :=
  let numbers := FindAllString re_decimal s in
  if (0 <? length numbers)%nat then last_of numbers else "".

(** [metricsToInterfaceSlice] of main.go (not called either). *)
Definition metricsToInterfaceSlice (m : Metrics) : list float64 :=
  [InitialCoverage m; FinalCoverage m; LinesCovered m; TotalLines m; TestAdded m].

(** The body of the [for] loop of [sendRequest] after a successful
    [Decode], lines 212-287.  The [fmt.Println] diagnostics are not
    modelled. *)
Definition sendRequest_event (ev : event) (st : Metrics) : result Metrics :=
  (* if event["dataType"] == "calculatedCoverage" *)
  let* initialCoverage :=
    (if iface_eq_string (index ev "dataType") "calculatedCoverage" then
       let* text := assert_string (index ev "calculatedCoverage") in
       let numbers := FindAllString re_decimal text in
       if (0 <? length numbers)%nat
       then Ok (toFloat (last_of numbers))
       else Ok (InitialCoverage st)
     else Ok (InitialCoverage st)) in
  (* if event["dataType"] == "summary" *)
  if iface_eq_string (index ev "dataType") "summary" then
    let finalCoverage := FinalCoverage st in
    let '(coverageStr, ok) := assert_string_ok (index ev "coverageIncreased") in
    let finalCoverage :=
      if negb ok || String.eqb coverageStr "" then f64_zero else finalCoverage in
    let finalCoverage :=
      if iface_eq_string (index ev "coverageIncreased") sentinel
      then initialCoverage else finalCoverage in
    let* text := assert_string (index ev "coverageIncreased") in
    let match_ := FindString re_integer text in
    let finalCoverage :=
      if negb (String.eqb match_ "") then toFloat match_ else finalCoverage in
    let* linesCovered := summary_field ev "linesCovered" (LinesCovered st) in
    let* totalLines := summary_field ev "totalLines" (TotalLines st) in
    let* testAdded := summary_field ev "testAdded" (TestAdded st) in
    Ok {| InitialCoverage := initialCoverage; FinalCoverage := finalCoverage;
          LinesCovered := linesCovered; TotalLines := totalLines;
          TestAdded := testAdded |}
  else
    Ok {| InitialCoverage := initialCoverage; FinalCoverage := FinalCoverage st;
          LinesCovered := LinesCovered st; TotalLines := TotalLines st;
          TestAdded := TestAdded st |}.

(** What one call of [decoder.Decode(&event)] delivers before the end of
    the stream: a decoded object (a JSON [null] leaves the map nil, that is
    empty) or an error other than [io.EOF] (malformed or truncated JSON, a
    value that is no object, a read error). *)
Inductive decoded : Type :=
| Event (ev : event)
| DecodeError.

(** The [for] loop of [sendRequest], lines 201-288, over the successive
    results of [Decode]; the end of the list is [io.EOF]. *)
Fixpoint sendRequest_loop (stream : list decoded) (st : Metrics) : result Metrics :=
  match stream with
  | [] => Ok st
  | DecodeError :: _ => Err ErrStream
  | Event ev :: rest =>
      let* st' := sendRequest_event ev st in
      sendRequest_loop rest st'
  end.

Definition calc_event (text : string) : event :=
  {[ "dataType" := JString "calculatedCoverage"; "calculatedCoverage" := JString text ]}.

Definition summary_event (delta lines total added : string) : event :=
  {[ "dataType" := JString "summary"; "coverageIncreased" := JString delta;
     "linesCovered" := JString lines; "totalLines" := JString total;
     "testAdded" := JString added ]}.

(** ** The candidate files: [filepath.Walk] and the callback of [main] *)

Module Filepath.

(** [filepath.Join(dir, name)] for a clean directory path and an entry
    name, as [Walk] calls it: the two joined by one separator. *)
Definition Join (dir name : string) : string :=
  if String.eqb dir "/" then "/" ++ name else dir ++ "/" ++ name.

(** The loop of [filepath.Ext], from the last byte down to the last
    separator: the suffix that starts at the first dot met. *)
Fixpoint ext_scan (rev_path : list ascii) (suffix : list ascii) : string :=
  match rev_path with
  | [] => ""
  | c :: more =>
      if Ascii.eqb c "/" then ""
      else if Ascii.eqb c "." then string_of_list_ascii (c :: suffix)
      else ext_scan more (c :: suffix)
  end.

Definition Ext (path : string) : string :=
  ext_scan (rev (list_ascii_of_string path)) [].

End Filepath.

(** What [Lstat] and [ReadDir] show of the tree under the working
    directory.  A [File] is anything that is not a directory; a directory
    lists its entries in the order [Walk] visits them (sorted by name),
    and [readable = false] means that listing it fails; [Broken] is an
    entry whose [Lstat] fails. *)
Inductive node : Type :=
| File (name : string)
| Dir (name : string) (readable : bool) (entries : list node)
| Broken (name : string).

Definition node_name (n : node) : string :=
  match n with
  | File name | Dir name _ _ | Broken name => name
  end.

Definition is_dir (n : node) : bool :=
  match n with
  | Dir _ _ _ => true
  | _ => false
  end.

(** What a [WalkFunc] returns: nil, [filepath.SkipDir], or another error. *)
Inductive walk_result : Type := WalkNil | SkipDir | WalkErr.

(** [isTestFile] of main.go. *)
Definition isTestFile (path : string) : bool :=
  Strings.Contains path "_test.go" || Strings.Contains path "test_".

(** The function literal that [main] passes to [filepath.Walk], lines
    56-68; [err] tells whether [Walk] reports an error for [path], and
    [goFiles] is the captured slice. *)
Definition walk_fn (path : string) (isDir : bool) (name : string) (err : bool)
    (goFiles : list string) : walk_result * list string :=
  if err then (WalkErr, goFiles)
  else if isDir && (String.eqb name "venv" || String.eqb name "migrations"
                    || String.eqb name "__pycache__")
  then (SkipDir, goFiles)
  else if negb isDir && String.eqb (Filepath.Ext path) ".py"
          && negb (isTestFile path) && negb (String.eqb name "__init__.py")
  then (WalkNil, (goFiles ++ [path])%list)
  else (WalkNil, goFiles).

(** The loop of [walk] over the entries of the directory [path]: an entry
    whose [Lstat] fails is reported to the callback, any other is walked;
    [SkipDir] from a directory entry is absorbed, any other error ends the
    walk. *)
Definition walk_entries
    (walk : string -> node -> list string -> walk_result * list string)
    (path : string) : list node -> list string -> walk_result * list string :=
  fix loop (entries : list node) (goFiles : list string) :=
    match entries with
    | [] => (WalkNil, goFiles)
    | child :: rest =>
        let filename := Filepath.Join path (node_name child) in
        let '(err, goFiles) := walk filename child goFiles in
        match err with
        | WalkNil => loop rest goFiles
        | SkipDir => if is_dir child then loop rest goFiles else (SkipDir, goFiles)
        | WalkErr => (WalkErr, goFiles)
        end
    end.

(** [walk] of package [path/filepath], with [walk_fn] as its callback: the
    callback sees a directory before its entries, with the error of
    listing it if any, and decides whether the entries are walked. *)
Fixpoint walk (path : string) (n : node) (goFiles : list string)
  : walk_result * list string :=
  match n with
  | File name => walk_fn path false name false goFiles
  | Broken name => walk_fn path false name true goFiles
  | Dir name readable entries =>
      let '(err1, goFiles) := walk_fn path true name (negb readable) goFiles in
      if negb readable then (err1, goFiles)
      else
        match err1 with
        | WalkNil => walk_entries walk path entries goFiles
        | _ => (err1, goFiles)
        end
  end.

(** [filepath.Walk(rootDir, fn)] and the test of its error in [main]:
    the files to process, or [None] when [main] returns on
    "Error walking through project files". *)
Definition Walk (rootDir : string) (root : node) : option (list string) :=
  match walk rootDir root [] with
  | (WalkErr, _) => None
  | (_, goFiles) => Some goFiles
  end.

(** ** The batch driver: [sendRequest], [measureDuration] and [main] *)

Record GenerateTestRequest : Type := {
  SrcFilePath : string;
  RootDir : string;
  AdditionalPrompt : string;
  MaxIterations : Z;
  Flakiness : bool;
  FunctionUnderTest : string;
  ExpectedCoverage : float64
}.

(** What one call of [sendRequest] meets outside the program: the failure
    of one of its three fallible calls ([json.Marshal], [http.NewRequest],
    [client.Do]), or a response with its status code and the successive
    results of decoding its body. *)
Inductive exchange : Type :=
| MarshalFails
| NewRequestFails
| DoFails
| Response (StatusCode : Z) (body : list decoded).

(** A cell of the sheet.  [duration.String()] and
    [t.Format(time.RFC3339)] are kept as the value they print. *)
Inductive cell : Type :=
| CString (s : string)
| CFloat (f : float64)
| CDuration (ns : Z)
| CTime (t : Z).

(** The sheet "Execution Log": cells by (column, row), column 0 being "A". *)
Abbreviation sheet := (gmap (nat * nat) cell).

(** The lines that [main] and [measureDuration] print. *)
Inductive line : Type :=
| Processing (file : string) (startTime : Z)
| Finished (file : string) (endTime duration : Z)
| FailedRequest (file : string) (e : error)
| FailedSave (file : string)
| SavedProgress (file : string).

(** The state of a run: the row cursor and the workbook of [main], the
    workbook that "execution_log_2.xlsx" holds on disk ([None]: no file,
    or a file from which no workbook can be read), the standard output,
    and how many times the clock, the service and the file system have
    been consulted. *)
Record process : Type := {
  row : nat;
  excelFile : sheet;
  saved : option sheet;
  stdout : list line;
  ticks : nat;
  calls : nat;
  saves : nat
}.

Definition headers : list string :=
  ["Filepath"; "Initial Coverage"; "Final Coverage"; "Lines Covered";
   "Total Lines"; "Tests Added"; "Time Duration"; "Start Time"; "End Time"].

(** [for col, value := range data { excelFile.SetCellValue(sheetName, cell, value) }]
    with [cell] the column letter [65+col] and the row [r]. *)
Fixpoint set_row (r : nat) (col : nat) (data : list cell) (sh : sheet) : sheet :=
  match data with
  | [] => sh
  | value :: more => set_row r (S col) more (<[(col, r) := value]> sh)
  end.

(** The request that [main] builds for a file, lines 94-102. *)
Definition request_for (rootDir file : string) : GenerateTestRequest :=
  {| SrcFilePath := file; RootDir := rootDir; AdditionalPrompt := "";
     MaxIterations := 0; Flakiness := false; FunctionUnderTest := "";
     ExpectedCoverage := f64_zero |}.

(** The nine cells of a record, line 118. *)
Definition record_cells (relativeName : string) (metrics : Metrics)
    (duration startTime endTime : Z) : list cell :=
  [CString relativeName; CFloat (InitialCoverage metrics);
   CFloat (FinalCoverage metrics); CFloat (LinesCovered metrics);
   CFloat (TotalLines metrics); CFloat (TestAdded metrics);
   CDuration duration; CTime startTime; CTime endTime].

(** The files announced by "Processing file:" on the standard output. *)
Fixpoint processing_files (out : list line) : list string :=
  match out with
  | [] => []
  | Processing file _ :: more => file :: processing_files more
  | _ :: more => processing_files more
  end.

Section Driver.

(** The environment of a run: the successive readings of [time.Now()],
    what the n-th request meets, whether the n-th [SaveAs] succeeds, what
    it makes of the file when it fails, and [filepath.Rel]. *)
Variable now : nat -> Z.
Variable service : nat -> GenerateTestRequest -> exchange.
Variable save_ok : nat -> bool.
Variable save_left : nat -> option sheet -> option sheet.
Variable Rel : string -> string -> option string.

(** [sendRequest] of main.go, given what the request meets. *)
Definition sendRequest (requestBody : GenerateTestRequest) (x : exchange)
  : result Metrics :=
  match x with
  | MarshalFails => Err ErrMarshal
  | NewRequestFails => Err ErrNewRequest
  | DoFails => Err ErrSend
  | Response StatusCode body =>
      if negb (StatusCode =? 200) then Err (ErrStatus StatusCode)
      else sendRequest_loop body zero_metrics
  end.

Definition print (l : line) (st : process) : process :=
  {| row := row st; excelFile := excelFile st; saved := saved st;
     stdout := stdout st ++ [l];
     ticks := ticks st; calls := calls st; saves := saves st |}.

(** [time.Now()]: the next reading of the clock. *)
Definition time_Now (st : process) : Z * process :=
  (now (ticks st),
   {| row := row st; excelFile := excelFile st; saved := saved st;
      stdout := stdout st;
      ticks := S (ticks st); calls := calls st; saves := saves st |}).

(** [measureDuration] of main.go: duration, metrics, start and end time on
    success; the error of [sendRequest] otherwise (the caller reads
    nothing else then). *)
Definition measureDuration (requestBody : GenerateTestRequest) (st : process)
  : process * result (Z * Metrics * Z * Z) :=
  let '(startTime, st) := time_Now st in
  let st := print (Processing (SrcFilePath requestBody) startTime) st in
  let r := sendRequest requestBody (service (calls st) requestBody) in
  let st :=
    {| row := row st; excelFile := excelFile st; saved := saved st;
       stdout := stdout st;
       ticks := ticks st; calls := S (calls st); saves := saves st |} in
  match r with
  | Panic => (st, Panic)
  | Err e => (st, Err e)
  | Ok metrics =>
      let '(endTime, st) := time_Now st in
      let duration := endTime - startTime in
      let st := print (Finished (SrcFilePath requestBody) endTime duration) st in
      (st, Ok (duration, metrics, startTime, endTime))
  end.

(** [excelFile.SaveAs(excelFilename)], of the excelize library: on success
    the file holds the workbook as it is now.  What a failed call makes of
    the file (nothing when it cannot be opened, a truncated or incomplete
    file when the write breaks off) is not the program's to decide:
    [save_left n old] is what the file holds after the n-th call, failing,
    on a file that held [old]. *)
Definition SaveAs (st : process) : bool * process :=
  let ok := save_ok (saves st) in
  (ok,
   {| row := row st; excelFile := excelFile st;
      saved := if ok then Some (excelFile st) else save_left (saves st) (saved st);
      stdout := stdout st;
      ticks := ticks st; calls := calls st; saves := S (saves st) |}).

(** The body of [for _, file := range goFiles], lines 93-133.  The
    loop goes on to the next file after the [continue] of line 108 as
    after [row++]. *)
Definition main_body (rootDir file : string) (st : process) : process * control :=
  let requestBody := request_for rootDir file in
  match measureDuration requestBody st with
  | (st, Panic) => (st, Crash)
  | (st, Err e) => (print (FailedRequest file e) st, Continue)
  | (st, Ok (duration, metrics, startTime, endTime)) =>
      let relativeName :=
        match Rel rootDir file with
        | Some rel => rel
        | None => file
        end in
      let data := record_cells relativeName metrics duration startTime endTime in
      let st :=
        {| row := row st; excelFile := set_row (row st) 0 data (excelFile st);
           saved := saved st; stdout := stdout st;
           ticks := ticks st; calls := calls st; saves := saves st |} in
      let '(ok, st) := SaveAs st in
      let st := print (if ok then SavedProgress file else FailedSave file) st in
      ({| row := S (row st); excelFile := excelFile st; saved := saved st;
          stdout := stdout st;
          ticks := ticks st; calls := calls st; saves := saves st |}, Continue)
  end.

(** The loop over [goFiles]. *)
Fixpoint main_loop (rootDir : string) (goFiles : list string) (st : process)
  : process * control :=
  match goFiles with
  | [] => (st, Continue)
  | file :: rest =>
      match main_body rootDir file st with
      | (st', Continue) => main_loop rootDir rest st'
      | (st', Crash) => (st', Crash)
      end
  end.

(** The state in which [main] enters its loop: the header in row 1, the
    cursor on row 2, nothing saved by this run. *)
Definition initial_run (tick0 : nat) (on_disk : option sheet) : process :=
  {| row := 2; excelFile := set_row 1 0 (map CString headers) ∅;
     saved := on_disk; stdout := [];
     ticks := tick0; calls := 0; saves := 0 |}.

(** [main], from a working directory [rootDir] whose tree is [root]; the
    first reading of the clock is [globalStartTime].  [None]: [main]
    returned before the loop, on the error of the walk. *)
Definition main (rootDir : string) (root : node) (on_disk : option sheet)
  : option (process * control) :=
  match Walk rootDir root with
  | None => None
  | Some goFiles => Some (main_loop rootDir goFiles (initial_run 1 on_disk))
  end.

End Driver.

(** The rows of a sheet that hold a record: those with a cell in column A. *)
Definition has_row (sh : sheet) (r : nat) : Prop := is_Some (sh !! (0%nat, r)).


(** The five fields of a Metrics are non-negative. *)
Definition nonneg_metrics (m : Metrics) : Prop :=
  f64_nonneg (InitialCoverage m) = true /\ f64_nonneg (FinalCoverage m) = true /\
  f64_nonneg (LinesCovered m) = true /\ f64_nonneg (TotalLines m) = true /\
  f64_nonneg (TestAdded m) = true.

(** [st] with [initialCoverage] set to [v]. *)
Definition set_initial (v : float64) (st : Metrics) : Metrics :=
  {| InitialCoverage := v; FinalCoverage := FinalCoverage st;
     LinesCovered := LinesCovered st; TotalLines := TotalLines st;
     TestAdded := TestAdded st |}.

(** A decoded event whose discriminator is neither of the recognised ones. *)
Definition unrecognised (d : decoded) : Prop :=
  match d with
  | Event ev =>
      iface_eq_string (index ev "dataType") "calculatedCoverage" = false /\
      iface_eq_string (index ev "dataType") "summary" = false
  | DecodeError => False
  end.

(** No path of the list contains "test_". *)
Definition no_test_path (goFiles : list string) : Prop :=
  Forall (fun p => Strings.Contains p "test_" = false) goFiles.

(** What [sendRequest] returns for [file] in the state [st] of the run. *)
Definition outcome (service : nat -> GenerateTestRequest -> exchange)
    (rootDir file : string) (st : process) : result Metrics :=
  sendRequest (request_for rootDir file)
    (service (calls st) (request_for rootDir file)).

(** A small environment for examples: a clock that advances by five, a
    service that answers 500 for "/p/a.py" and streams two events for any
    other file, a file system on which every [SaveAs] succeeds. *)
Definition demo_now (n : nat) : Z := 1700000000 + 5 * Z.of_nat n.

Definition demo_service (n : nat) (req : GenerateTestRequest) : exchange :=
  if String.eqb (SrcFilePath req) "/p/a.py" then Response 500 []
  else Response 200 [Event (calc_event "30%");
                     Event (summary_event sentinel "12 lines" "40" "3")].

Definition demo_save (n : nat) : bool := true.

Definition demo_left (n : nat) (old : option sheet) : option sheet := old.

Definition demo_Rel (basepath targpath : string) : option string := None.

(** A decoded event that carries, as texts, the fields of its variant. *)
Definition carries_texts (d : decoded) : Prop :=
  match d with
  | Event ev =>
      (iface_eq_string (index ev "dataType") "calculatedCoverage" = true ->
       exists text, index ev "calculatedCoverage" = JString text) /\
      (iface_eq_string (index ev "dataType") "summary" = true ->
       exists delta lines total added,
         index ev "coverageIncreased" = JString delta /\
         index ev "linesCovered" = JString lines /\
         index ev "totalLines" = JString total /\
         index ev "testAdded" = JString added)
  | DecodeError => False
  end.

(** A [float64] that is a number: neither an infinity nor a NaN. *)
Definition f64_finite (f : float64) : bool :=
  match f with
  | S754_zero _ | S754_finite _ _ _ => true
  | S754_infinity _ | S754_nan => false
  end.

(** Whether [s] is made of digits only. *)
Fixpoint all_digits (s : string) : bool :=
  match s with
  | String c s' => digit c && all_digits s'
  | EmptyString => true
  end.

(** Whether [s] starts with a digit. *)
Definition starts_with_digit (s : string) : bool :=
  match s with
  | String c _ => digit c
  | EmptyString => false
  end.

(** The five fields of a Metrics satisfy [P]. *)
Definition all_fields (P : float64 -> Prop) (m : Metrics) : Prop :=
  P (InitialCoverage m) /\ P (FinalCoverage m) /\ P (LinesCovered m) /\
  P (TotalLines m) /\ P (TestAdded m).

(** What [walk_fn] requires of the path of a file under [root] before it
    appends it. *)
Definition python_source (root p : string) : Prop :=
  Filepath.Ext p = ".py" /\ isTestFile p = false /\ Strings.HasPrefix p root = true.

(** The names of the directories that [walk_fn] has [Walk] pass over. *)
Definition skipped_name (name : string) : bool :=
  String.eqb name "venv" || String.eqb name "migrations"
  || String.eqb name "__pycache__".

(** A tree in which the walk comes upon an entry that cannot be examined
    or a directory that cannot be listed: the node itself, or an entry of
    it at any depth that lies in no readable directory of one of the three
    names. *)
Fixpoint blocked (n : node) : bool :=
  match n with
  | File _ => false
  | Broken _ => true
  | Dir name readable entries =>
      negb readable || (negb (skipped_name name) && existsb blocked entries)
  end.

(** A service that streams, for "/p/b.py", a summary without its texts. *)
Definition demo_service_bare (n : nat) (req : GenerateTestRequest) : exchange :=
  if String.eqb (SrcFilePath req) "/p/b.py"
  then Response 200 [Event {[ "dataType" := JString "summary" ]}]
  else demo_service n req.

(** A service whose requests all fail. *)
Definition demo_service_down (n : nat) (req : GenerateTestRequest) : exchange :=
  if (n =? 0)%nat then DoFails else Response 404 [].

(** * Properties *)

(** ** The patterns of the program match the numeric substrings *)

Lemma app_String c (a b : string) : String c a ++ b = String c (a ++ b).
Proof. reflexivity. Qed.

Lemma app_Empty (b : string) : "" ++ b = b.
Proof. reflexivity. Qed.

Ltac string_app := repeat (rewrite app_String || rewrite app_Empty).

Lemma take_skip_class p s : take_class p s ++ skip_class p s = s.
Proof.
  induction s as [|c s IH]; simpl; [reflexivity|].
  destruct (p c); string_app; [now rewrite IH | reflexivity].
Qed.

Lemma length_app (a b : string) :
  String.length (a ++ b) = (String.length a + String.length b)%nat.
Proof.
  induction a as [|c a IH]; string_app; simpl; [reflexivity | now rewrite IH].
Qed.

Lemma take_prefix (a b : string) :
  take (String.length (a ++ b) - String.length b) (a ++ b) = a.
Proof.
  rewrite length_app.
  replace (String.length a + String.length b - String.length b)%nat
    with (String.length a) by lia.
  induction a as [|c a IH]; string_app; simpl.
  - destruct b; reflexivity.
  - now rewrite IH.
Qed.

Lemma app_assoc_string (a b c : string) : (a ++ b) ++ c = a ++ (b ++ c).
Proof. induction a as [|x a IH]; string_app; [reflexivity | now rewrite IH]. Qed.

(** A greedy iteration whose continuation accepts what follows the longest
    run stops exactly there. *)
Lemma star_class_greedy {A} p s (k : string -> option A) :
  k (skip_class p s) <> None -> star_class p s k = k (skip_class p s).
Proof.
  induction s as [|c s IH]; simpl; intros Hk.
  - reflexivity.
  - destruct (p c) eqn:Hc.
    + rewrite (IH Hk). destruct (k (skip_class p s)); [reflexivity | contradiction].
    + reflexivity.
Qed.

Lemma integer_at_split s m r : integer_at s = Some (m, r) -> s = m ++ r.
Proof.
  destruct s as [|c s]; simpl; [discriminate|].
  destruct (digit c); [|discriminate].
  intros [= <- <-]. string_app. now rewrite take_skip_class.
Qed.

Lemma fraction_at_split s : fst (fraction_at s) ++ snd (fraction_at s) = s.
Proof.
  unfold fraction_at.
  destruct s as [|c [|d s]]; try reflexivity.
  destruct (Ascii.eqb c "." && digit d); simpl; string_app;
    [now rewrite take_skip_class | reflexivity].
Qed.

Lemma decimal_at_split s m r : decimal_at s = Some (m, r) -> s = m ++ r.
Proof.
  unfold decimal_at. destruct (integer_at s) as [[int rest]|] eqn:Hi; [|discriminate].
  pose proof (fraction_at_split rest) as Hf.
  destruct (fraction_at rest) as [frac rest']. simpl in Hf.
  intros [= <- <-]. apply integer_at_split in Hi.
  now rewrite app_assoc_string, Hf.
Qed.

Lemma run_integer s : run re_integer s Some = option_map snd (integer_at s).
Proof.
  unfold re_integer. destruct s as [|c s]; simpl; [reflexivity|].
  destruct (digit c); [|reflexivity].
  now rewrite star_class_greedy.
Qed.

Lemma run_fraction s :
  run (Opt (Cat (Lit ".") (Plus digit))) s Some = Some (snd (fraction_at s)).
Proof.
  unfold fraction_at. simpl.
  destruct s as [|c [|d s]]; try reflexivity.
  - destruct (Ascii.eqb c "."); reflexivity.
  - destruct (Ascii.eqb c "."); [|reflexivity].
    destruct (digit d); simpl; [|reflexivity].
    now rewrite star_class_greedy.
Qed.

Lemma run_plus_cat {A} p r s (k : string -> option A) :
  run (Cat (Plus p) r) s k =
  match s with
  | String c s' => if p c then star_class p s' (fun x => run r x k) else None
  | EmptyString => None
  end.
Proof. destruct s; reflexivity. Qed.

Lemma run_decimal s : run re_decimal s Some = option_map snd (decimal_at s).
Proof.
  unfold re_decimal, decimal_at. rewrite run_plus_cat.
  destruct s as [|c s]; simpl integer_at; [reflexivity|].
  destruct (digit c); [|reflexivity].
  rewrite star_class_greedy by (rewrite run_fraction; discriminate).
  rewrite run_fraction. now destruct (fraction_at (skip_class digit s)).
Qed.

(** The text that [re_integer] matches at the start of [s] is the run of
    digits there. *)
Lemma match_here_integer s : match_here re_integer s = option_map fst (integer_at s).
Proof.
  unfold match_here. rewrite run_integer.
  destruct (integer_at s) as [[m r]|] eqn:Hi; simpl; [|reflexivity].
  apply integer_at_split in Hi. subst s. now rewrite take_prefix.
Qed.

(** The text that [re_decimal] matches at the start of [s] is the decimal
    numeral there. *)
Lemma match_here_decimal s : match_here re_decimal s = option_map fst (decimal_at s).
Proof.
  unfold match_here. rewrite run_decimal.
  destruct (decimal_at s) as [[m r]|] eqn:Hd; simpl; [|reflexivity].
  apply decimal_at_split in Hd. subst s. now rewrite take_prefix.
Qed.

(** A match starts with a digit: it is not empty and carries no sign. *)
Lemma integer_at_head s m r :
  integer_at s = Some (m, r) -> exists c m', m = String c m' /\ digit c = true.
Proof.
  destruct s as [|c s]; simpl; [discriminate|].
  destruct (digit c) eqn:Hc; [|discriminate].
  intros [= <- _]. eauto.
Qed.

Lemma decimal_at_head s m r :
  decimal_at s = Some (m, r) -> exists c m', m = String c m' /\ digit c = true.
Proof.
  unfold decimal_at. destruct (integer_at s) as [[int rest]|] eqn:Hi; [|discriminate].
  destruct (fraction_at rest) as [frac rest']. intros [= <- _].
  destruct (integer_at_head _ _ _ Hi) as (c & m' & -> & Hc).
  exists c, (m' ++ frac). now rewrite app_String.
Qed.

(** Stepping over the bytes of a match resumes the search after it. *)
Lemma find_all_skip r (a b : string) :
  find_all r (String.length a) (a ++ b) = find_all r 0 b.
Proof. induction a as [|c a IH]; string_app; simpl; [reflexivity | exact IH]. Qed.

(** [FindAllString] with [re_decimal] takes the decimal numeral at the
    current position when there is one, and moves one byte on otherwise. *)
Lemma FindAllString_decimal_eq s :
  FindAllString re_decimal s =
  match decimal_at s with
  | Some (m, rest) => m :: FindAllString re_decimal rest
  | None =>
      match s with
      | String _ s' => FindAllString re_decimal s'
      | EmptyString => []
      end
  end.
Proof.
  unfold FindAllString. destruct s as [|c s]; [reflexivity|].
  cbn [find_all]. rewrite match_here_decimal.
  destruct (decimal_at (String c s)) as [[m rest]|] eqn:Hd; simpl; [|reflexivity].
  f_equal. pose proof (decimal_at_split _ _ _ Hd) as Hs.
  destruct (decimal_at_head _ _ _ Hd) as (c' & m' & -> & _).
  rewrite app_String in Hs. injection Hs as -> ->. simpl. apply find_all_skip.
Qed.

Lemma decimal_at_shorter s m rest :
  decimal_at s = Some (m, rest) -> (String.length rest < String.length s)%nat.
Proof.
  intros Hd. pose proof (decimal_at_split _ _ _ Hd) as ->.
  destruct (decimal_at_head _ _ _ Hd) as (c & m' & -> & _).
  rewrite length_app. simpl. lia.
Qed.

(** Induction along the scan of [FindAllString]. *)
Lemma scan_ind (P : string -> Prop) :
  P "" ->
  (forall s m rest, decimal_at s = Some (m, rest) -> P rest -> P s) ->
  (forall c s, decimal_at (String c s) = None -> P s -> P (String c s)) ->
  forall s, P s.
Proof.
  intros H0 Hm Hs s.
  remember (String.length s) as n eqn:Hn. revert s Hn.
  induction n as [n IH] using lt_wf_ind. intros s ->.
  destruct (decimal_at s) as [[m rest]|] eqn:Hd.
  - apply (Hm s m rest Hd). apply (IH (String.length rest)); [|reflexivity].
    now apply decimal_at_shorter in Hd.
  - destruct s as [|c s]; [exact H0|].
    apply Hs; [exact Hd|]. apply (IH (String.length s)); [simpl; lia | reflexivity].
Qed.

Lemma decimal_at_None c s : decimal_at (String c s) = None -> digit c = false.
Proof.
  unfold decimal_at. simpl. destruct (digit c); [|reflexivity].
  destruct (fraction_at (skip_class digit s)); discriminate.
Qed.

(** There is a match exactly when the text contains a digit. *)
Lemma FindAllString_decimal_nil s :
  FindAllString re_decimal s = [] <-> has_digit s = false.
Proof.
  induction s as [|s m rest Hd IH|c s Hd IH] using scan_ind;
    rewrite FindAllString_decimal_eq.
  - simpl. tauto.
  - rewrite Hd. split; [discriminate|].
    unfold decimal_at in Hd. destruct s as [|c s]; simpl in Hd; [discriminate|].
    simpl. destruct (digit c); [discriminate|]. discriminate.
  - rewrite Hd. simpl. now rewrite (decimal_at_None _ _ Hd).
Qed.

Lemma skip_take_class p s t : skip_class p (take_class p s ++ t) = skip_class p t.
Proof.
  induction s as [|c s IH]; simpl; [reflexivity|].
  destruct (p c) eqn:Hc; string_app; [|reflexivity].
  simpl. now rewrite Hc.
Qed.

Lemma skip_take_nil p s : skip_class p (take_class p s) = "".
Proof.
  induction s as [|c s IH]; simpl; [reflexivity|].
  destruct (p c) eqn:Hc; [|reflexivity]. simpl. now rewrite Hc.
Qed.

Lemma digit_point c : Ascii.eqb c "." = true -> digit c = false.
Proof. intros H. apply Ascii.eqb_eq in H. now subst c. Qed.

(** What [re_decimal] matches has the shape of a decimal numeral. *)
Lemma decimal_match_shape s m rest :
  decimal_at s = Some (m, rest) -> is_decimal m = true.
Proof.
  unfold decimal_at. destruct s as [|c s]; simpl; [discriminate|].
  destruct (digit c) eqn:Hc; [|discriminate].
  assert (Hplain : is_decimal (String c (take_class digit s) ++ "") = true).
  { unfold is_decimal. rewrite app_String. simpl.
    now rewrite Hc, skip_take_class. }
  unfold fraction_at.
  destruct (skip_class digit s) as [|c2 [|d r]]; try (intros [= <- _]; exact Hplain).
  destruct (Ascii.eqb c2 ".") eqn:Hp; simpl; [|intros [= <- _]; exact Hplain].
  destruct (digit d) eqn:Hd; simpl; [|intros [= <- _]; exact Hplain].
  intros [= <- _]. unfold is_decimal. rewrite app_String. simpl.
  rewrite Hc, skip_take_class. simpl.
  rewrite (digit_point _ Hp), Hp. simpl. now rewrite Hd, skip_take_nil.
Qed.

(** What [re_integer] matches is a run of digits, a decimal numeral too. *)
Lemma integer_match_shape s m rest :
  integer_at s = Some (m, rest) -> is_decimal m = true.
Proof.
  destruct s as [|c s]; simpl; [discriminate|].
  destruct (digit c) eqn:Hc; [|discriminate]. intros [= <- _].
  unfold is_decimal. simpl. now rewrite Hc, skip_take_nil.
Qed.

Lemma FindAllString_decimal_shape s :
  Forall (fun m => is_decimal m = true) (FindAllString re_decimal s).
Proof.
  induction s as [|s m rest Hd IH|c s Hd IH] using scan_ind;
    rewrite FindAllString_decimal_eq.
  - constructor.
  - rewrite Hd. constructor; [now apply decimal_match_shape in Hd | exact IH].
  - rewrite Hd. exact IH.
Qed.

Lemma last_of_cons m l : l <> [] -> last_of (m :: l) = last_of l.
Proof.
  unfold last_of. destruct l as [|x l]; [congruence|]. intros _.
  simpl. now rewrite Nat.sub_0_r.
Qed.

(** The last match is a decimal numeral of the text with no digit after
    it. *)
Lemma FindAllString_decimal_last s :
  has_digit s = true ->
  exists pre post,
    s = pre ++ last_of (FindAllString re_decimal s) ++ post /\
    is_decimal (last_of (FindAllString re_decimal s)) = true /\
    has_digit post = false.
Proof.
  induction s as [|s m rest Hd IH|c s Hd IH] using scan_ind;
    rewrite FindAllString_decimal_eq.
  - discriminate.
  - intros _. rewrite Hd.
    destruct (has_digit rest) eqn:Hr.
    + destruct (IH eq_refl) as (pre & post & Hs & Hshape & Hpost).
      rewrite last_of_cons by (rewrite FindAllString_decimal_nil; congruence).
      exists (m ++ pre), post. repeat split; try assumption.
      rewrite app_assoc_string, <- Hs. now apply decimal_at_split.
    + apply FindAllString_decimal_nil in Hr as Hnil. rewrite Hnil.
      exists "", rest. repeat split; try assumption.
      * string_app. now apply decimal_at_split.
      * now apply decimal_match_shape in Hd.
  - rewrite Hd. simpl. rewrite (decimal_at_None _ _ Hd). simpl. intros Hs.
    destruct (IH Hs) as (pre & post & Heq & Hshape & Hpost).
    exists (String c pre), post. repeat split; try assumption.
    rewrite app_String. now f_equal.
Qed.

(** [FindString] with [re_integer] returns the first run of digits. *)
Lemma FindString_integer_eq s :
  FindString re_integer s =
  match s with
  | String c s' =>
      if digit c then String c (take_class digit s') else FindString re_integer s'
  | EmptyString => ""
  end.
Proof.
  unfold FindString. destruct s as [|c s]; [reflexivity|].
  cbn [find]. rewrite match_here_integer. simpl.
  destruct (digit c); reflexivity.
Qed.

Lemma FindString_integer_nil s :
  FindString re_integer s = "" <-> has_digit s = false.
Proof.
  induction s as [|c s IH]; rewrite FindString_integer_eq; simpl; [tauto|].
  destruct (digit c); simpl; [split; discriminate | exact IH].
Qed.

Lemma FindString_integer_head s :
  has_digit s = true ->
  exists c m', FindString re_integer s = String c m' /\ digit c = true.
Proof.
  induction s as [|c s IH]; rewrite FindString_integer_eq; simpl; [discriminate|].
  destruct (digit c) eqn:Hc; simpl; [eauto | exact IH].
Qed.

Lemma FindString_integer_shape s :
  has_digit s = true -> is_decimal (FindString re_integer s) = true.
Proof.
  induction s as [|c s IH]; rewrite FindString_integer_eq; simpl; [discriminate|].
  destruct (digit c) eqn:Hc; simpl; [intros _ | exact IH].
  apply (integer_match_shape (String c s) _ (skip_class digit s)).
  simpl. now rewrite Hc.
Qed.

Lemma FindAllString_decimal_head s :
  has_digit s = true ->
  exists c m', last_of (FindAllString re_decimal s) = String c m' /\ digit c = true.
Proof.
  intros Hs. destruct (FindAllString_decimal_last s Hs) as (_ & _ & _ & Hshape & _).
  unfold is_decimal in Hshape.
  destruct (integer_at (last_of (FindAllString re_decimal s))) as [[m r]|] eqn:Hi;
    [|discriminate].
  destruct (last_of (FindAllString re_decimal s)) as [|c m']; [discriminate|].
  simpl in Hi. destruct (digit c) eqn:Hc; [eauto | discriminate].
Qed.

(** ** The conversion of a match is a non-negative number *)

Section Rounding.

Variables prec emax : Z.

Lemma iter_pos_invariant {A} (P : A -> Prop) (f : A -> A) :
  (forall x, P x -> P (f x)) -> forall n x, P x -> P (SpecFloat.iter_pos f n x).
Proof.
  intros Hf. induction n as [n IH|n IH|]; simpl; intros x Hx; auto.
Qed.

Lemma shr_1_nonneg mrs : 0 <= shr_m mrs -> 0 <= shr_m (shr_1 mrs).
Proof.
  destruct mrs as [m r s]. simpl.
  destruct m as [|[p|p|]|p]; simpl; lia.
Qed.

Lemma shr_fexp_nonneg m e l :
  0 <= m -> 0 <= shr_m (fst (shr_fexp prec emax m e l)).
Proof.
  intros Hm. unfold shr_fexp, shr.
  assert (H0 : 0 <= shr_m (shr_record_of_loc m l)) by (destruct l as [|[]]; exact Hm).
  destruct (fexp prec emax (Zdigits2 m + e) - e) as [|p|p]; simpl; try exact H0.
  apply (iter_pos_invariant (fun mrs => 0 <= shr_m mrs)); [apply shr_1_nonneg | exact H0].
Qed.

Lemma round_nearest_even_nonneg m l : 0 <= m -> 0 <= round_nearest_even m l.
Proof.
  intros Hm. destruct l as [|[]]; simpl; try lia.
  destruct (Z.even m); lia.
Qed.

(** Rounding a non-negative mantissa with a positive sign gives a zero,
    a positive number or the positive infinity, never a NaN. *)
Lemma binary_round_aux_nonneg mx ex lx :
  0 <= mx -> f64_nonneg (binary_round_aux prec emax false mx ex lx) = true.
Proof.
  intros Hm. unfold binary_round_aux.
  pose proof (shr_fexp_nonneg mx ex lx Hm) as H1.
  destruct (shr_fexp prec emax mx ex lx) as [mrs' e']. simpl in H1.
  pose proof (shr_fexp_nonneg _ e' loc_Exact
                (round_nearest_even_nonneg _ (loc_of_shr_record mrs') H1)) as H2.
  destruct (shr_fexp prec emax _ e' loc_Exact) as [mrs'' e'']. simpl in H2.
  destruct (shr_m mrs'') as [|m|m]; [reflexivity| |lia].
  destruct (e'' <=? emax - prec); reflexivity.
Qed.

Lemma SFdiv_core_binary_nonneg m1 e1 m2 e2 :
  0 <= m1 -> 0 < m2 ->
  0 <= fst (fst (SFdiv_core_binary prec emax m1 e1 m2 e2)).
Proof.
  intros H1 H2. unfold SFdiv_core_binary.
  set (s := e1 - e2 - _).
  set (m' := match s with Z.pos _ => Z.shiftl m1 s | Z0 => m1 | Z.neg _ => 0 end).
  assert (Hm' : 0 <= m').
  { subst m'. destruct s; try lia. now apply Z.shiftl_nonneg. }
  destruct (Z.div_eucl m' m2) as [q r] eqn:E. simpl.
  assert (q = m' / m2) as -> by (unfold Z.div; now rewrite E).
  apply Z.div_pos; lia.
Qed.

End Rounding.

Lemma digit_val_nonneg c : digit c = true -> 0 <= Strconv.digit_val c.
Proof.
  unfold digit, Strconv.digit_val. intros H.
  apply andb_true_iff in H as [H _]. apply Nat.leb_le in H. lia.
Qed.

Lemma digit_not_sign c :
  digit c = true -> Ascii.eqb c "+" = false /\ Ascii.eqb c "-" = false.
Proof.
  intros Hc. split; apply not_true_is_false; intros H;
    apply Ascii.eqb_eq in H; subst c; discriminate.
Qed.

(** [read_digits] reads the run of digits at the start of its input. *)
Lemma read_digits_spec s : forall acc n,
  exists v,
    Strconv.read_digits acc n s
    = (v, (n + String.length (take_class digit s))%nat, skip_class digit s)
    /\ (0 <= acc -> 0 <= v).
Proof.
  induction s as [|c s IH]; intros acc n; simpl.
  - exists acc. split; [now rewrite Nat.add_0_r | tauto].
  - destruct (digit c) eqn:Hc.
    + destruct (IH (10 * acc + Strconv.digit_val c) (S n)) as (v & -> & Hv).
      exists v. split; [simpl; f_equal; f_equal; lia|].
      intros Hacc. apply Hv. pose proof (digit_val_nonneg c Hc). lia.
    + exists acc. split; [simpl; now rewrite Nat.add_0_r | tauto].
Qed.

Lemma round_decimal_nonneg mant frac :
  0 <= mant -> f64_nonneg (Strconv.round_decimal false mant frac) = true.
Proof.
  intros Hm. unfold Strconv.round_decimal.
  destruct mant as [|p|p]; [reflexivity| |lia].
  pose proof (SFdiv_core_binary_nonneg prec64 emax64 (Z.pos p) 0
                (10 ^ Z.of_nat frac) 0 Hm) as Hq.
  destruct (SFdiv_core_binary _ _ _ _ _ _) as [[mz ez] lz].
  apply binary_round_aux_nonneg. apply Hq. apply Z.pow_pos_nonneg; lia.
Qed.

(** [toFloat] of a text that starts with a digit is zero or positive. *)
Lemma toFloat_nonneg c m : digit c = true -> f64_nonneg (toFloat (String c m)) = true.
Proof.
  intros Hc. unfold toFloat, Strconv.ParseFloat.
  destruct (digit_not_sign c Hc) as [-> ->].
  destruct (read_digits_spec (String c m) 0 0) as (m1 & -> & H1).
  specialize (H1 ltac:(lia)).
  set (rest := skip_class digit (String c m)). clearbody rest.
  set (n1 := (0 + _)%nat). clearbody n1.
  assert (Hfin : forall m2 n2 rest', 0 <= m2 ->
    f64_nonneg
      (let (num, o) :=
         match (n1 + n2)%nat, rest' with
         | S _, EmptyString =>
             match Strconv.round_decimal false m2 n2 with
             | S754_infinity sg => (S754_infinity sg, Some Strconv.ErrRange)
             | f => (f, None)
             end
         | _, _ => (f64_zero, Some Strconv.ErrSyntax)
         end in
       match o with Some _ => f64_zero | None => num end) = true).
  { intros m2 n2 rest' H2. pose proof (round_decimal_nonneg m2 n2 H2) as Hr.
    destruct (n1 + n2)%nat; [reflexivity|]. destruct rest'; [|reflexivity].
    destruct (Strconv.round_decimal false m2 n2); try exact Hr; reflexivity. }
  destruct rest as [|c2 after]; [exact (Hfin m1 0%nat "" H1)|].
  destruct (Ascii.eqb c2 "."); [|exact (Hfin m1 0%nat (String c2 after) H1)].
  destruct (read_digits_spec after m1 0) as (m2 & -> & H2).
  exact (Hfin m2 _ _ (H2 H1)).
Qed.

(** On a decimal numeral, [ParseFloat] reports no syntax error: the strings
    that the program converts lie within the modelled grammar. *)
Lemma ParseFloat_decimal m :
  is_decimal m = true -> snd (Strconv.ParseFloat m) <> Some Strconv.ErrSyntax.
Proof.
  unfold is_decimal. destruct m as [|c m]; simpl integer_at; [discriminate|].
  destruct (digit c) eqn:Hc; [|discriminate].
  intros Hshape. unfold Strconv.ParseFloat.
  destruct (digit_not_sign c Hc) as [-> ->].
  destruct (read_digits_spec (String c m) 0 0) as (m1 & -> & _).
  simpl take_class. simpl skip_class. rewrite Hc. simpl String.length.
  assert (Hcount : forall k n : nat, (0 + S k + n = S (k + n))%nat) by lia.
  destruct (skip_class digit m) as [|c2 frac].
  { rewrite Hcount. destruct (Strconv.round_decimal false m1 0); discriminate. }
  apply andb_true_iff in Hshape as [-> Hfrac].
  destruct (read_digits_spec frac m1 0) as (m2 & -> & _). rewrite Hcount.
  destruct frac as [|d frac]; [discriminate|]. simpl in Hfrac |- *.
  destruct (digit d); [|discriminate].
  destruct (skip_class digit frac); [|discriminate].
  destruct (Strconv.round_decimal false m2 _); discriminate.
Qed.

(** ** The reducer *)

Lemma index_lookup (ev : event) key v : ev !! key = Some v -> index ev key = v.
Proof. unfold index. now intros ->. Qed.

Lemma sendRequest_loop_app a b st :
  sendRequest_loop (a ++ b)%list st
  = let* st' := sendRequest_loop a st in sendRequest_loop b st'.
Proof.
  revert st. induction a as [|[ev|] a IH]; intros st; simpl; try reflexivity.
  destruct (sendRequest_event ev st) as [st'| |]; simpl; auto.
Qed.

Lemma decimal_value_nonneg text :
  (0 <? length (FindAllString re_decimal text))%nat = true ->
  f64_nonneg (toFloat (last_of (FindAllString re_decimal text))) = true.
Proof.
  intros Hlen. destruct (has_digit text) eqn:Hd.
  - destruct (FindAllString_decimal_head text Hd) as (c & m & -> & Hc).
    now apply toFloat_nonneg.
  - apply FindAllString_decimal_nil in Hd. rewrite Hd in Hlen. discriminate.
Qed.

Lemma integer_value_nonneg text :
  String.eqb (FindString re_integer text) "" = false ->
  f64_nonneg (toFloat (FindString re_integer text)) = true.
Proof.
  intros Hne. destruct (has_digit text) eqn:Hd.
  - destruct (FindString_integer_head text Hd) as (c & m & -> & Hc).
    now apply toFloat_nonneg.
  - apply FindString_integer_nil in Hd. rewrite Hd in Hne. discriminate.
Qed.

(** The block of a summary field on a text value: the first run of digits
    when there is one, zero for the empty text, the current value
    otherwise. *)
Lemma summary_field_text (ev : event) key text cur :
  ev !! key = Some (JString text) ->
  summary_field ev key cur
  = Ok (if negb (String.eqb (FindString re_integer text) "")
        then toFloat (FindString re_integer text)
        else if String.eqb text "" then f64_zero else cur).
Proof.
  intros H. unfold summary_field. rewrite (index_lookup _ _ _ H). simpl.
  destruct (String.eqb text ""); reflexivity.
Qed.

(** The block panics on a field that is absent or holds no text. *)
Lemma summary_field_not_text (ev : event) key cur :
  (forall text, index ev key <> JString text) -> summary_field ev key cur = Panic.
Proof.
  intros H. unfold summary_field.
  destruct (index ev key) as [| | |text| |]; try reflexivity. now elim (H text).
Qed.

Lemma summary_field_nonneg (ev : event) key cur v :
  f64_nonneg cur = true -> summary_field ev key cur = Ok v -> f64_nonneg v = true.
Proof.
  intros Hcur. unfold summary_field.
  destruct (index ev key) as [| | |text| |]; simpl; try discriminate.
  intros [= <-].
  destruct (String.eqb (FindString re_integer text) "") eqn:Hm; simpl.
  - destruct (String.eqb text ""); [reflexivity | exact Hcur].
  - now apply integer_value_nonneg.
Qed.

(** One event keeps the five locals non-negative. *)
Lemma sendRequest_event_nonneg ev st st' :
  nonneg_metrics st -> sendRequest_event ev st = Ok st' -> nonneg_metrics st'.
Proof.
  intros (Hi & Hf & Hl & Ht & Ha). unfold sendRequest_event.
  set (init := if iface_eq_string (index ev "dataType") "calculatedCoverage"
               then _ else _).
  assert (Hinit : forall v, init = Ok v -> f64_nonneg v = true).
  { subst init. intros v.
    destruct (iface_eq_string (index ev "dataType") "calculatedCoverage");
      [|now intros [= <-]].
    destruct (index ev "calculatedCoverage") as [| | |text| |]; simpl; try discriminate.
    destruct (0 <? length (FindAllString re_decimal text))%nat eqn:Hlen;
      intros [= <-]; [now apply decimal_value_nonneg | exact Hi]. }
  destruct init as [v| |]; simpl; try discriminate. specialize (Hinit v eq_refl).
  destruct (iface_eq_string (index ev "dataType") "summary").
  - destruct (index ev "coverageIncreased") as [| | |delta| |] eqn:Hdelta;
      simpl; try discriminate.
    destruct (summary_field ev "linesCovered" _) as [l| |] eqn:El; simpl; try discriminate.
    destruct (summary_field ev "totalLines" _) as [t| |] eqn:Et; simpl; try discriminate.
    destruct (summary_field ev "testAdded" _) as [a| |] eqn:Ea; simpl; try discriminate.
    intros [= <-]. unfold nonneg_metrics. simpl.
    apply (summary_field_nonneg _ _ _ _ Hl) in El.
    apply (summary_field_nonneg _ _ _ _ Ht) in Et.
    apply (summary_field_nonneg _ _ _ _ Ha) in Ea.
    repeat split; try assumption.
    destruct (String.eqb (FindString re_integer delta) "") eqn:Hm; simpl;
      [|now apply integer_value_nonneg].
    destruct (String.eqb delta sentinel); [exact Hinit|].
    destruct (String.eqb delta ""); [reflexivity | exact Hf].
  - intros [= <-]. unfold nonneg_metrics. simpl. auto.
Qed.

Lemma summary_event_fields delta lines total added :
  let ev := summary_event delta lines total added in
  ev !! "dataType" = Some (JString "summary") /\
  ev !! "coverageIncreased" = Some (JString delta) /\
  ev !! "linesCovered" = Some (JString lines) /\
  ev !! "totalLines" = Some (JString total) /\
  ev !! "testAdded" = Some (JString added).
Proof. repeat split; reflexivity. Qed.

Lemma set_initial_same st : set_initial (InitialCoverage st) st = st.
Proof. now destruct st. Qed.

(** A [calculatedCoverage] event with a text field. *)
Lemma calculatedCoverage_step (ev : event) st text :
  ev !! "dataType" = Some (JString "calculatedCoverage") ->
  ev !! "calculatedCoverage" = Some (JString text) ->
  sendRequest_event ev st
  = Ok (set_initial
          (if (0 <? length (FindAllString re_decimal text))%nat
           then toFloat (last_of (FindAllString re_decimal text))
           else InitialCoverage st) st).
Proof.
  intros Hd Ht. unfold sendRequest_event.
  rewrite (index_lookup _ _ _ Hd), (index_lookup _ _ _ Ht). simpl.
  destruct (0 <? length (FindAllString re_decimal text))%nat; reflexivity.
Qed.

(** A [summary] event whose four fields are texts. *)
Lemma summary_step (ev : event) st delta lines total added :
  ev !! "dataType" = Some (JString "summary") ->
  ev !! "coverageIncreased" = Some (JString delta) ->
  ev !! "linesCovered" = Some (JString lines) ->
  ev !! "totalLines" = Some (JString total) ->
  ev !! "testAdded" = Some (JString added) ->
  exists l t a,
    summary_field ev "linesCovered" (LinesCovered st) = Ok l /\
    summary_field ev "totalLines" (TotalLines st) = Ok t /\
    summary_field ev "testAdded" (TestAdded st) = Ok a /\
    sendRequest_event ev st
    = Ok {| InitialCoverage := InitialCoverage st;
            FinalCoverage :=
              if negb (String.eqb (FindString re_integer delta) "")
              then toFloat (FindString re_integer delta)
              else if String.eqb delta sentinel then InitialCoverage st
              else if String.eqb delta "" then f64_zero else FinalCoverage st;
            LinesCovered := l; TotalLines := t; TestAdded := a |}.
Proof.
  intros Hd Hc Hl Ht Ha.
  rewrite (summary_field_text _ _ _ (LinesCovered st) Hl),
          (summary_field_text _ _ _ (TotalLines st) Ht),
          (summary_field_text _ _ _ (TestAdded st) Ha).
  do 3 eexists. repeat split. unfold sendRequest_event.
  rewrite (index_lookup _ _ _ Hd), (index_lookup _ _ _ Hc).
  rewrite (summary_field_text _ _ _ (LinesCovered st) Hl),
          (summary_field_text _ _ _ (TotalLines st) Ht),
          (summary_field_text _ _ _ (TestAdded st) Ha).
  simpl. reflexivity.
Qed.

(** C5: a [calculatedCoverage] event whose text holds a numeric substring
    sets [initialCoverage] to the conversion of the last match of
    [\d+(\.\d+)?], a decimal numeral of the text after which no digit
    follows; when the text has no digit there is no match and the state is
    unchanged.  The text "...running at 12, now 45.5%" gives 45.5. *)
Theorem calculatedCoverage_last_match (ev : event) (st : Metrics) (text : string) :
  ev !! "dataType" = Some (JString "calculatedCoverage") ->
  ev !! "calculatedCoverage" = Some (JString text) ->
  (has_digit text = true ->
   exists pre m post,
     text = pre ++ m ++ post /\ is_decimal m = true /\ has_digit post = false /\
     m = last_of (FindAllString re_decimal text) /\
     sendRequest_event ev st = Ok (set_initial (toFloat m) st)) /\
  (has_digit text = false ->
   FindAllString re_decimal text = [] /\ sendRequest_event ev st = Ok st) /\
  (forall st0,
     sendRequest_event (calc_event "...running at 12, now 45.5%") st0
     = Ok (set_initial (toFloat "45.5") st0)) /\
  f64_value (toFloat "45.5") = Some (91 # 2).
Proof.
  intros Hd Ht. pose proof (calculatedCoverage_step ev st text Hd Ht) as Hstep.
  split; [|split; [|split]].
  - intros Hdig.
    destruct (FindAllString_decimal_last text Hdig) as (pre & post & Hs & Hshape & Hpost).
    exists pre, (last_of (FindAllString re_decimal text)), post.
    repeat split; try assumption.
    rewrite Hstep.
    destruct (FindAllString re_decimal text) as [|x l] eqn:Hall; [|reflexivity].
    apply FindAllString_decimal_nil in Hall. congruence.
  - intros Hnone. apply FindAllString_decimal_nil in Hnone as Hnil.
    split; [exact Hnil|]. rewrite Hstep, Hnil. simpl.
    now rewrite set_initial_same.
  - intros st0.
    now rewrite (calculatedCoverage_step _ st0 "...running at 12, now 45.5%").
  - reflexivity.
Qed.

Lemma calculatedCoverage_last_match_witness :
  let ev := calc_event "from 7.25 up to 12.5 %" in
  ev !! "dataType" = Some (JString "calculatedCoverage") /\
  ev !! "calculatedCoverage" = Some (JString "from 7.25 up to 12.5 %") /\
  sendRequest_event ev zero_metrics = Ok (set_initial (toFloat "12.5") zero_metrics).
Proof.
  split; [reflexivity|]. split; [reflexivity|].
  destruct (calculatedCoverage_last_match
              (calc_event "from 7.25 up to 12.5 %") zero_metrics
              "from 7.25 up to 12.5 %" eq_refl eq_refl) as (Hlast & _).
  destruct (Hlast eq_refl) as (pre & m & post & _ & _ & _ & -> & ->).
  reflexivity.
Defined.

(** C2: a [summary] event whose coverage-delta text is the sentinel
    "Coverage did not increase" sets [finalCoverage] to the value that
    [initialCoverage] has at that point of the stream, whatever the three
    other texts are; after a [calculatedCoverage] event of 30 and such a
    summary, initial and final coverage are both 30. *)
Theorem carry_forward (ev : event) (lines total added : string)
    (pre : list decoded) (st0 st : Metrics) :
  ev !! "dataType" = Some (JString "summary") ->
  ev !! "coverageIncreased" = Some (JString sentinel) ->
  ev !! "linesCovered" = Some (JString lines) ->
  ev !! "totalLines" = Some (JString total) ->
  ev !! "testAdded" = Some (JString added) ->
  sendRequest_loop pre st0 = Ok st ->
  (exists st',
     sendRequest_loop (pre ++ [Event ev])%list st0 = Ok st' /\
     FinalCoverage st' = InitialCoverage st /\
     InitialCoverage st' = InitialCoverage st) /\
  (forall l t a, exists m,
     sendRequest_loop [Event (calc_event "30%"); Event (summary_event sentinel l t a)]
       zero_metrics = Ok m /\
     InitialCoverage m = f64_of_Z 30 /\ FinalCoverage m = f64_of_Z 30).
Proof.
  assert (Hgen : forall (e : event) l t a p s0 s,
    e !! "dataType" = Some (JString "summary") ->
    e !! "coverageIncreased" = Some (JString sentinel) ->
    e !! "linesCovered" = Some (JString l) ->
    e !! "totalLines" = Some (JString t) ->
    e !! "testAdded" = Some (JString a) ->
    sendRequest_loop p s0 = Ok s ->
    exists s', sendRequest_loop (p ++ [Event e])%list s0 = Ok s' /\
               FinalCoverage s' = InitialCoverage s /\
               InitialCoverage s' = InitialCoverage s).
  { intros e l t a p s0 s H1 H2 H3 H4 H5 Hp.
    rewrite sendRequest_loop_app, Hp. simpl.
    destruct (summary_step e s sentinel l t a H1 H2 H3 H4 H5)
      as (l' & t' & a' & _ & _ & _ & ->).
    eexists. split; [reflexivity|]. split; reflexivity. }
  intros Hd Hc Hl Ht Ha Hpre. split.
  - exact (Hgen ev lines total added pre st0 st Hd Hc Hl Ht Ha Hpre).
  - intros l t a.
    destruct (summary_event_fields sentinel l t a) as (H1 & H2 & H3 & H4 & H5).
    destruct (Hgen (summary_event sentinel l t a) l t a
                [Event (calc_event "30%")] zero_metrics
                (set_initial (f64_of_Z 30) zero_metrics) H1 H2 H3 H4 H5 eq_refl)
      as (m & Hm & Hf & Hi).
    exists m. split; [exact Hm|]. split; [exact Hi | exact Hf].
Qed.

Lemma carry_forward_witness :
  let ev := summary_event sentinel "3 of 10 lines" "10" "" in
  let pre := [Event (calc_event "12%"); Event (calc_event "now 61.5%")] in
  sendRequest_loop pre zero_metrics = Ok (set_initial (toFloat "61.5") zero_metrics) /\
  exists st',
    sendRequest_loop (pre ++ [Event ev])%list zero_metrics = Ok st' /\
    FinalCoverage st' = toFloat "61.5" /\ InitialCoverage st' = toFloat "61.5".
Proof.
  split; [reflexivity|].
  exact (proj1 (carry_forward (summary_event sentinel "3 of 10 lines" "10" "")
                  "3 of 10 lines" "10" ""
                  [Event (calc_event "12%"); Event (calc_event "now 61.5%")]
                  zero_metrics (set_initial (toFloat "61.5") zero_metrics)
                  eq_refl eq_refl eq_refl eq_refl eq_refl eq_refl)).
Defined.

(** C4: two [calculatedCoverage] events "10%" then "20%" followed by a
    [summary] event whose coverage-delta text is "5" give
    [initialCoverage] 20 (the last one wins) and [finalCoverage] 5 (the
    number of the delta text, no carry-forward), whatever the three other
    texts of the summary are. *)
Theorem ordering_law (lines total added : string) :
  exists m,
    sendRequest_loop
      [Event (calc_event "10%"); Event (calc_event "20%");
       Event (summary_event "5" lines total added)] zero_metrics = Ok m /\
    InitialCoverage m = f64_of_Z 20 /\ FinalCoverage m = f64_of_Z 5 /\
    f64_value (InitialCoverage m) = Some (20 # 1) /\
    f64_value (FinalCoverage m) = Some (5 # 1).
Proof.
  destruct (summary_event_fields "5" lines total added) as (H1 & H2 & H3 & H4 & H5).
  destruct (summary_step (summary_event "5" lines total added)
              (set_initial (f64_of_Z 20) zero_metrics) "5" lines total added
              H1 H2 H3 H4 H5) as (l & t & a & _ & _ & _ & Hstep).
  assert (Hrun : sendRequest_loop
                   ([Event (calc_event "10%"); Event (calc_event "20%")]
                    ++ [Event (summary_event "5" lines total added)])%list zero_metrics
                 = sendRequest_event (summary_event "5" lines total added)
                     (set_initial (f64_of_Z 20) zero_metrics)).
  { rewrite sendRequest_loop_app.
    change (sendRequest_loop [Event (calc_event "10%"); Event (calc_event "20%")]
              zero_metrics) with (Ok (set_initial (f64_of_Z 20) zero_metrics)).
    unfold bind at 1. unfold sendRequest_loop.
    now destruct (sendRequest_event _ _). }
  eexists. split.
  - etransitivity; [exact Hrun|]. exact Hstep.
  - repeat split; reflexivity.
Qed.

(** A [summary] event with a coverage-delta text whose [linesCovered] field
    is absent or holds no text makes the reducer panic, whatever the state
    and the other fields. *)
Lemma summary_without_lines_panics (ev : event) st delta :
  ev !! "dataType" = Some (JString "summary") ->
  ev !! "coverageIncreased" = Some (JString delta) ->
  (forall text, index ev "linesCovered" <> JString text) ->
  sendRequest_event ev st = Panic.
Proof.
  intros Hd Hc Hl. unfold sendRequest_event.
  rewrite (index_lookup _ _ _ Hd), (index_lookup _ _ _ Hc). simpl.
  now rewrite (summary_field_not_text _ _ _ Hl).
Qed.

(** C1, on the code: a [summary] event whose [linesCovered] field is absent,
    or holds a number instead of a text, makes the reducer panic at the
    unchecked assertion of line 252, after the comma-ok assertion of line
    246 had seen the missing text; no Metrics is returned and the fields
    after it are not processed.  The same holds of [calculatedCoverage]
    (line 215). *)
Theorem missing_field_panics :
  sendRequest_loop
    [Event {[ "dataType" := JString "summary";
              "coverageIncreased" := JString "5";
              "totalLines" := JString "10"; "testAdded" := JString "2" ]}]
    zero_metrics = Panic /\
  sendRequest_loop
    [Event {[ "dataType" := JString "summary";
              "coverageIncreased" := JString "5";
              "linesCovered" := JNumber (f64_of_Z 7);
              "totalLines" := JString "10"; "testAdded" := JString "2" ]}]
    zero_metrics = Panic /\
  sendRequest_loop
    [Event {[ "dataType" := JString "calculatedCoverage";
              "calculatedCoverage" := JNumber (f64_of_Z 45) ]}]
    zero_metrics = Panic.
Proof. repeat split; reflexivity. Qed.

(** C3, on the code: when the last [summary] of a stream carries texts
    without digits, its fields do not fall back to zero: the values of
    the earlier [summary] stay, although the last [summary] alone gives
    zero in every field. *)
Theorem last_summary_keeps_stale_values :
  let first := summary_event "5" "7" "9" "2" in
  let last := summary_event "none" "n/a" "unknown" "-" in
  sendRequest_loop [Event first; Event last] zero_metrics
  = Ok {| InitialCoverage := f64_zero; FinalCoverage := f64_of_Z 5;
          LinesCovered := f64_of_Z 7; TotalLines := f64_of_Z 9;
          TestAdded := f64_of_Z 2 |} /\
  sendRequest_loop [Event last] zero_metrics = Ok zero_metrics.
Proof. split; reflexivity. Qed.

(** X17: when the four texts of the last [summary] each hold a digit, its
    values do replace whatever the earlier events left. *)
Lemma last_summary_with_digits_wins (ev : event) pre st0 st delta lines total added :
  ev !! "dataType" = Some (JString "summary") ->
  ev !! "coverageIncreased" = Some (JString delta) ->
  ev !! "linesCovered" = Some (JString lines) ->
  ev !! "totalLines" = Some (JString total) ->
  ev !! "testAdded" = Some (JString added) ->
  has_digit delta = true -> has_digit lines = true ->
  has_digit total = true -> has_digit added = true ->
  sendRequest_loop pre st0 = Ok st ->
  sendRequest_loop (pre ++ [Event ev])%list st0
  = Ok {| InitialCoverage := InitialCoverage st;
          FinalCoverage := toFloat (FindString re_integer delta);
          LinesCovered := toFloat (FindString re_integer lines);
          TotalLines := toFloat (FindString re_integer total);
          TestAdded := toFloat (FindString re_integer added) |}.
Proof.
  intros Hd Hc Hl Ht Ha Dd Dl Dt Da Hpre.
  assert (Hne : forall text, has_digit text = true ->
                  String.eqb (FindString re_integer text) "" = false).
  { intros text Htext. destruct (FindString_integer_head text Htext) as (c & m & -> & _).
    reflexivity. }
  rewrite sendRequest_loop_app, Hpre. simpl.
  destruct (summary_step ev st delta lines total added Hd Hc Hl Ht Ha)
    as (l & t & a & El & Et & Ea & ->).
  rewrite summary_field_text with (text := lines) in El by exact Hl.
  rewrite summary_field_text with (text := total) in Et by exact Ht.
  rewrite summary_field_text with (text := added) in Ea by exact Ha.
  rewrite (Hne _ Dl) in El. rewrite (Hne _ Dt) in Et. rewrite (Hne _ Da) in Ea.
  injection El as <-. injection Et as <-. injection Ea as <-.
  simpl. now rewrite (Hne _ Dd).
Qed.

(** C7, on the code: a stream that ends cleanly but holds a recognised
    event without its text field gives no Metrics: the reducer panics. *)
Theorem clean_stream_panics :
  sendRequest_loop [Event {[ "dataType" := JString "summary" ]}] zero_metrics = Panic /\
  sendRequest_loop
    [Event (calc_event "40%"); Event {[ "dataType" := JString "calculatedCoverage" ]}]
    zero_metrics = Panic.
Proof. split; reflexivity. Qed.

(** An event whose discriminator is neither of the two recognised ones
    changes nothing. *)
Lemma unrecognised_event_skipped (ev : event) st :
  iface_eq_string (index ev "dataType") "calculatedCoverage" = false ->
  iface_eq_string (index ev "dataType") "summary" = false ->
  sendRequest_event ev st = Ok st.
Proof.
  intros H1 H2. unfold sendRequest_event. rewrite H1, H2. simpl. now destruct st.
Qed.

(** A stream without recognised events ends in the metrics it started
    from: all zero from the start of [sendRequest]. *)
Lemma metrics_free_stream stream st :
  Forall unrecognised stream -> sendRequest_loop stream st = Ok st.
Proof.
  induction 1 as [|[ev|] rest Hd Hrest IH]; simpl; [reflexivity| |contradiction].
  destruct Hd as [H1 H2]. now rewrite (unrecognised_event_skipped ev st H1 H2).
Qed.

(** On a stream whose events all carry the texts of their variant the
    reducer returns a Metrics. *)
Lemma text_stream_returns stream : forall st,
  Forall carries_texts stream -> exists m, sendRequest_loop stream st = Ok m.
Proof.
  induction stream as [|d rest IH]; intros st Hall; [now exists st|].
  apply Forall_cons in Hall as [Hd Hrest].
  destruct d as [ev|]; [|contradiction]. destruct Hd as [Hcalc Hsum].
  assert (Hev : exists st', sendRequest_event ev st = Ok st').
  { unfold sendRequest_event.
    destruct (iface_eq_string (index ev "dataType") "calculatedCoverage").
    - destruct (Hcalc eq_refl) as [text ->]. simpl.
      destruct (0 <? length (FindAllString re_decimal text))%nat; simpl;
        (destruct (iface_eq_string (index ev "dataType") "summary");
         [destruct (Hsum eq_refl) as (dl & l & t & a & Hc & Hl & Ht & Ha);
          unfold summary_field; rewrite Hc, Hl, Ht, Ha; simpl; eauto | eauto]).
    - simpl. destruct (iface_eq_string (index ev "dataType") "summary"); [|eauto].
      destruct (Hsum eq_refl) as (dl & l & t & a & Hc & Hl & Ht & Ha).
      unfold summary_field. rewrite Hc, Hl, Ht, Ha. simpl. eauto. }
  destruct Hev as [st' Hev]. simpl. rewrite Hev. simpl. now apply IH.
Qed.

Lemma sendRequest_loop_nonneg stream : forall st m,
  nonneg_metrics st -> sendRequest_loop stream st = Ok m -> nonneg_metrics m.
Proof.
  induction stream as [|[ev|] rest IH]; intros st m Hst; simpl.
  - now intros [= <-].
  - destruct (sendRequest_event ev st) as [st'| |] eqn:He; simpl; try discriminate.
    apply IH. now apply (sendRequest_event_nonneg ev st).
  - discriminate.
Qed.

(** C10: every Metrics that the reducer returns has its five fields
    non-negative. *)
Theorem metrics_nonneg (stream : list decoded) (m : Metrics) :
  sendRequest_loop stream zero_metrics = Ok m ->
  f64_nonneg (InitialCoverage m) = true /\ f64_nonneg (FinalCoverage m) = true /\
  f64_nonneg (LinesCovered m) = true /\ f64_nonneg (TotalLines m) = true /\
  f64_nonneg (TestAdded m) = true.
Proof.
  apply sendRequest_loop_nonneg. repeat split; reflexivity.
Qed.

Lemma metrics_nonneg_witness :
  let stream := [Event (calc_event "coverage 41.7%");
                 Event (summary_event "up by 12" "120 lines" "" "3 tests")] in
  exists m,
    sendRequest_loop stream zero_metrics = Ok m /\
    f64_nonneg (InitialCoverage m) = true /\ f64_nonneg (FinalCoverage m) = true /\
    f64_nonneg (LinesCovered m) = true /\ f64_nonneg (TotalLines m) = true /\
    f64_nonneg (TestAdded m) = true.
Proof.
  eexists. split; [reflexivity|].
  apply (metrics_nonneg
           [Event (calc_event "coverage 41.7%");
            Event (summary_event "up by 12" "120 lines" "" "3 tests")]).
  reflexivity.
Defined.

(** ** The candidate files *)

Lemma HasPrefix_app (a b t : string) :
  Strings.HasPrefix a t = true -> Strings.HasPrefix (a ++ b) t = true.
Proof.
  revert a. induction t as [|x t IH]; intros a; [now destruct (a ++ b)|].
  destruct a as [|c a]; simpl; [discriminate|]. string_app. simpl.
  intros H. apply andb_true_iff in H as [-> H]. simpl. now apply IH.
Qed.

Lemma Contains_app_l (a b t : string) :
  Strings.Contains a t = true -> Strings.Contains (a ++ b) t = true.
Proof.
  induction a as [|c a IH]; cbn [Strings.Contains]; intros H.
  - rewrite orb_false_r in H. rewrite app_Empty.
    destruct t; [now destruct b | discriminate].
  - rewrite app_String. cbn [Strings.Contains]. apply orb_true_iff in H as [H|H].
    + apply (HasPrefix_app _ b) in H. rewrite app_String in H. now rewrite H.
    + rewrite (IH H). apply orb_true_r.
Qed.

Lemma Contains_app_r (a b t : string) :
  Strings.Contains b t = true -> Strings.Contains (a ++ b) t = true.
Proof.
  intros H. induction a as [|c a IH]; string_app; [exact H|].
  cbn [Strings.Contains]. rewrite IH. apply orb_true_r.
Qed.

Lemma Contains_Join_dir dir name t :
  Strings.Contains dir t = true -> Strings.Contains (Filepath.Join dir name) t = true.
Proof.
  intros H. unfold Filepath.Join. destruct (String.eqb dir "") eqn:E.
  - destruct (String.eqb dir "/") eqn:Eslash.
    + apply String.eqb_eq in Eslash. subst dir. now apply Contains_app_l.
    + now apply Contains_app_l.
  - destruct (String.eqb dir "/") eqn:Eslash.
    + apply String.eqb_eq in Eslash. subst dir. now apply Contains_app_l.
    + now apply Contains_app_l.
Qed.

Lemma Contains_Join_name dir name t :
  Strings.Contains name t = true -> Strings.Contains (Filepath.Join dir name) t = true.
Proof.
  intros H. unfold Filepath.Join.
  destruct (String.eqb dir "/"); repeat apply Contains_app_r; exact H.
Qed.

(** Induction on a file tree, with the hypothesis on every entry of a
    directory. *)
Lemma node_induction (P : node -> Prop) :
  (forall name, P (File name)) ->
  (forall name, P (Broken name)) ->
  (forall name readable entries, Forall P entries -> P (Dir name readable entries)) ->
  forall n, P n.
Proof.
  intros HF HB HD. fix IH 1. intros [name|name readable entries|name].
  - apply HF.
  - apply HD. induction entries as [|child rest IHrest]; constructor.
    + apply IH.
    + exact IHrest.
  - apply HB.
Qed.

Lemma walk_fn_no_test path isDir name err goFiles :
  no_test_path goFiles -> no_test_path (snd (walk_fn path isDir name err goFiles)).
Proof.
  intros H. unfold walk_fn. destruct err; [exact H|].
  destruct (isDir && _); [exact H|].
  destruct (negb isDir && String.eqb (Filepath.Ext path) ".py"
            && negb (isTestFile path) && negb (String.eqb name "__init__.py")) eqn:E;
    [|exact H].
  simpl. apply Forall_app. split; [exact H|]. constructor; [|constructor].
  apply andb_true_iff in E as [E _]. apply andb_true_iff in E as [_ E].
  unfold isTestFile in E. apply negb_true_iff, orb_false_iff in E. tauto.
Qed.

Lemma walk_entries_no_test path entries :
  Forall (fun n => forall p g, no_test_path g -> no_test_path (snd (walk p n g))) entries ->
  forall g, no_test_path g -> no_test_path (snd (walk_entries walk path entries g)).
Proof.
  induction 1 as [|child rest Hchild _ IH]; intros g Hg; simpl; [exact Hg|].
  specialize (Hchild (Filepath.Join path (node_name child)) g Hg).
  destruct (walk _ child g) as [[| |] g']; simpl in *; auto.
  destruct (is_dir child); simpl; auto.
Qed.

Lemma walk_no_test n : forall path g,
  no_test_path g -> no_test_path (snd (walk path n g)).
Proof.
  induction n as [name|name|name readable entries IH] using node_induction;
    intros path g Hg; cbn [walk]; try now apply walk_fn_no_test.
  pose proof (walk_fn_no_test path true name (negb readable) g Hg) as H1.
  destruct (walk_fn path true name (negb readable) g) as [err1 g1]. simpl in H1.
  destruct (negb readable); [exact H1|].
  destruct err1; simpl; try exact H1.
  now apply walk_entries_no_test.
Qed.

Lemma walk_fn_test_path path isDir name err goFiles :
  Strings.Contains path "test_" = true ->
  snd (walk_fn path isDir name err goFiles) = goFiles.
Proof.
  intros H. unfold walk_fn, isTestFile. rewrite H, orb_true_r. simpl.
  rewrite andb_false_r. simpl.
  destruct err; [reflexivity|]. now destruct (isDir && _).
Qed.

Lemma walk_entries_test_path path entries :
  Strings.Contains path "test_" = true ->
  Forall (fun n => forall p g, Strings.Contains p "test_" = true ->
                               snd (walk p n g) = g) entries ->
  forall g, snd (walk_entries walk path entries g) = g.
Proof.
  intros Hp. induction 1 as [|child rest Hchild _ IH]; intros g; simpl; [reflexivity|].
  specialize (Hchild (Filepath.Join path (node_name child)) g
                (Contains_Join_dir _ _ _ Hp)).
  destruct (walk _ child g) as [[| |] g']; simpl in *; subst g'; auto.
  destruct (is_dir child); simpl; auto.
Qed.

(** Below a path that contains "test_" nothing is collected. *)
Lemma walk_test_path n : forall path g,
  Strings.Contains path "test_" = true -> snd (walk path n g) = g.
Proof.
  induction n as [name|name|name readable entries IH] using node_induction;
    intros path g Hp; cbn [walk]; try now apply walk_fn_test_path.
  pose proof (walk_fn_test_path path true name (negb readable) g Hp) as H1.
  destruct (walk_fn path true name (negb readable) g) as [err1 g1]. simpl in H1. subst g1.
  destruct (negb readable); [reflexivity|].
  destruct err1; simpl; try reflexivity.
  now apply walk_entries_test_path.
Qed.

(** C9: no file that [main] processes has "test_" anywhere in its path; a
    file is left out as soon as its path contains "test_", in its own name
    or in the name of a directory above it, so that nothing below a
    directory whose name contains "test_" is processed, whatever its own
    name; for instance "helpers.py" under "test_utils". *)
Theorem test_exclusion_overmatches :
  (forall rootDir root goFiles p,
     Walk rootDir root = Some goFiles -> In p goFiles ->
     Strings.Contains p "test_" = false) /\
  (forall dir name readable entries goFiles,
     Strings.Contains name "test_" = true ->
     snd (walk (Filepath.Join dir name) (Dir name readable entries) goFiles) = goFiles) /\
  (forall path n goFiles,
     Strings.Contains path "test_" = true -> snd (walk path n goFiles) = goFiles) /\
  Walk "/srv/app"
    (Dir "app" true
       [Dir "core" true [File "helpers.py"; File "test_helpers.py"];
        Dir "test_utils" true [File "helpers.py"; Dir "io" true [File "reader.py"]]])
  = Some ["/srv/app/core/helpers.py"].
Proof.
  split; [|split; [|split]].
  - intros rootDir root goFiles p HW Hin. unfold Walk in HW.
    pose proof (walk_no_test root rootDir [] ltac:(constructor)) as H.
    destruct (walk rootDir root []) as [[| |] g]; simpl in H; try discriminate;
      injection HW as <-; unfold no_test_path in H; rewrite Forall_forall in H;
      apply H; now apply list_elem_of_In.
  - intros dir name readable entries goFiles Hname.
    apply walk_test_path. now apply Contains_Join_name.
  - intros path n goFiles. apply walk_test_path.
  - reflexivity.
Qed.

(** ** The batch driver *)

Section DriverFacts.

Variable now : nat -> Z.
Variable service : nat -> GenerateTestRequest -> exchange.
Variable save_ok : nat -> bool.
Variable save_left : nat -> option sheet -> option sheet.
Variable Rel : string -> string -> option string.

Local Abbreviation body := (main_body now service save_ok save_left Rel).
Local Abbreviation loop := (main_loop now service save_ok save_left Rel).

(** An iteration whose request fails with an error: two lines printed,
    one reading of the clock, nothing else. *)
Lemma main_body_failed rootDir file st e :
  outcome service rootDir file st = Err e ->
  body rootDir file st
  = ({| row := row st; excelFile := excelFile st; saved := saved st;
        stdout := (stdout st ++ [Processing file (now (ticks st))])
                  ++ [FailedRequest file e];
        ticks := S (ticks st); calls := S (calls st); saves := saves st |},
     Continue).
Proof.
  unfold outcome, main_body, measureDuration. simpl. now intros ->.
Qed.

Lemma main_body_panic rootDir file st :
  outcome service rootDir file st = Panic -> snd (body rootDir file st) = Crash.
Proof.
  unfold outcome, main_body, measureDuration. simpl. now intros ->.
Qed.

(** An iteration whose request succeeds. *)
Lemma main_body_succeeded rootDir file st metrics :
  outcome service rootDir file st = Ok metrics ->
  let startTime := now (ticks st) in
  let endTime := now (S (ticks st)) in
  let relativeName := match Rel rootDir file with Some rel => rel | None => file end in
  let sh := set_row (row st) 0
              (record_cells relativeName metrics (endTime - startTime) startTime endTime)
              (excelFile st) in
  body rootDir file st
  = ({| row := S (row st); excelFile := sh;
        saved := if save_ok (saves st) then Some sh
                 else save_left (saves st) (saved st);
        stdout := ((stdout st ++ [Processing file startTime])
                   ++ [Finished file endTime (endTime - startTime)])
                  ++ [if save_ok (saves st) then SavedProgress file else FailedSave file];
        ticks := S (S (ticks st)); calls := S (calls st); saves := S (saves st) |},
     Continue).
Proof.
  unfold outcome, main_body, measureDuration. simpl. now intros ->.
Qed.

End DriverFacts.

Lemma set_row_lower (r col : nat) (data : list cell) (sh : sheet) (c r' : nat) :
  (c < col)%nat -> set_row r col data sh !! (c, r') = sh !! (c, r').
Proof.
  revert col sh. induction data as [|v data IH]; intros col sh Hc; simpl; [reflexivity|].
  rewrite IH by lia. apply lookup_insert_ne. intros [= -> _]. lia.
Qed.

Lemma set_row_other (r col : nat) (data : list cell) (sh : sheet) (c r' : nat) :
  r' <> r -> set_row r col data sh !! (c, r') = sh !! (c, r').
Proof.
  revert col sh. induction data as [|v data IH]; intros col sh Hr; simpl; [reflexivity|].
  rewrite IH by exact Hr. apply lookup_insert_ne. intros [= _ ->]. now apply Hr.
Qed.

Lemma set_row_first (r col : nat) (v : cell) (data : list cell) (sh : sheet) :
  set_row r col (v :: data) sh !! (col, r) = Some v.
Proof. simpl. rewrite set_row_lower by lia. apply lookup_insert_eq. Qed.

Lemma processing_files_app a b :
  processing_files (a ++ b)%list = (processing_files a ++ processing_files b)%list.
Proof.
  induction a as [|l a IH]; [reflexivity|].
  destruct l; simpl; now rewrite IH.
Qed.

Ltac fields :=
  cbv zeta; cbn [fst snd row excelFile saved stdout ticks calls saves].

Section DriverLaws.

Variable now : nat -> Z.
Variable service : nat -> GenerateTestRequest -> exchange.
Variable save_ok : nat -> bool.
Variable save_left : nat -> option sheet -> option sheet.
Variable Rel : string -> string -> option string.

Local Abbreviation body := (main_body now service save_ok save_left Rel).
Local Abbreviation loop := (main_loop now service save_ok save_left Rel).

(** Every iteration starts by reading the clock and announcing the file
    with that reading. *)
Lemma main_body_dispatches rootDir file st :
  exists more,
    stdout (fst (body rootDir file st))
    = (stdout st ++ Processing file (now (ticks st)) :: more)%list.
Proof.
  destruct (outcome service rootDir file st) as [metrics|e|] eqn:Ho.
  - rewrite (main_body_succeeded _ _ _ _ _ _ _ _ _ Ho). fields.
    eexists. now rewrite <- !app_assoc.
  - rewrite (main_body_failed _ _ _ _ _ _ _ _ _ Ho). fields.
    eexists. now rewrite <- !app_assoc.
  - exists []. revert Ho.
    unfold outcome, main_body, measureDuration. simpl. now intros ->.
Qed.

(** An iteration writes at most one record, at the row of the cursor, and
    calls [SaveAs] exactly when it writes one. *)
Lemma main_body_rows rootDir file st :
  let st' := fst (body rootDir file st) in
  (row st <= row st' <= S (row st))%nat /\
  (saves st' + row st = saves st + row st')%nat /\
  (forall r, has_row (excelFile st') r ->
             has_row (excelFile st) r \/ (r = row st /\ row st' = S (row st))).
Proof.
  destruct (outcome service rootDir file st) as [metrics|e|] eqn:Ho.
  - rewrite (main_body_succeeded _ _ _ _ _ _ _ _ _ Ho). fields.
    split; [lia|]. split; [lia|]. intros r Hr.
    destruct (decide (r = row st)) as [->|Hne]; [now right|].
    left. unfold has_row in *. now rewrite set_row_other in Hr.
  - rewrite (main_body_failed _ _ _ _ _ _ _ _ _ Ho). fields.
    split; [lia|]. split; [lia|]. auto.
  - revert Ho.
    unfold outcome, main_body, measureDuration. simpl. intros ->. simpl.
    split; [lia|]. split; [lia|]. auto.
Qed.

Lemma main_loop_rows rootDir goFiles : forall st,
  let st' := fst (loop rootDir goFiles st) in
  (row st <= row st' <= row st + length goFiles)%nat /\
  (saves st' + row st = saves st + row st')%nat /\
  (forall r, has_row (excelFile st') r ->
             has_row (excelFile st) r \/ (row st <= r < row st')%nat).
Proof.
  induction goFiles as [|file rest IH]; intros st; simpl.
  - split; [lia|]. split; [lia|]. auto.
  - pose proof (main_body_rows rootDir file st) as (Hrow & Hsave & Hrec).
    cbn [main_loop].
    destruct (body rootDir file st) as [st1 [|]]; simpl in *.
    + specialize (IH st1). destruct IH as (IHrow & IHsave & IHrec).
      split; [lia|]. split; [lia|]. intros r Hr.
      destruct (IHrec r Hr) as [H1|H1]; [|right; lia].
      destruct (Hrec r H1) as [H0|[-> H0]]; [now left | right; lia].
    + split; [lia|]. split; [lia|]. intros r Hr.
      destruct (Hrec r Hr) as [H0|[-> H0]]; [now left | right; lia].
Qed.

(** When no request panics, the loop announces every file, in order, and
    comes to the end of the list. *)
Lemma main_loop_runs_through rootDir goFiles :
  (forall n req, sendRequest req (service n req) <> Panic) ->
  forall st,
    snd (loop rootDir goFiles st) = Continue /\
    processing_files (stdout (fst (loop rootDir goFiles st)))
    = (processing_files (stdout st) ++ goFiles)%list.
Proof.
  intros Hsafe. induction goFiles as [|file rest IH]; intros st.
  - simpl. now rewrite app_nil_r.
  - cbn [main_loop].
    destruct (outcome service rootDir file st) as [metrics|e|] eqn:Ho.
    + rewrite (main_body_succeeded _ _ _ _ _ _ _ _ _ Ho).
      match goal with |- context [main_loop _ _ _ _ _ _ _ ?s] => specialize (IH s) end.
      destruct IH as [IH1 IH2]. split; [exact IH1|]. rewrite IH2. fields.
      rewrite !processing_files_app. destruct (save_ok (saves st)); simpl;
        now rewrite !app_nil_r, <- app_assoc.
    + rewrite (main_body_failed _ _ _ _ _ _ _ _ _ Ho).
      match goal with |- context [main_loop _ _ _ _ _ _ _ ?s] => specialize (IH s) end.
      destruct IH as [IH1 IH2]. split; [exact IH1|]. rewrite IH2. fields.
      rewrite !processing_files_app. simpl. now rewrite !app_nil_r, <- app_assoc.
    + now elim (Hsafe _ _ Ho).
Qed.

End DriverLaws.

(** X18: when the processing of a file fails with an error that
    [sendRequest] returns (request construction, transport, status other
    than 200, stream decoding), no record is written for it, in the sheet
    or in the file, and the loop goes on: the next file is announced with
    a start time read from the clock at that moment.  In a run in which no
    request panics, the loop announces every enumerated file and stops at
    the end of the list; a request that panics does end the run. *)
Theorem failed_item_is_isolated
    (now : nat -> Z) (service : nat -> GenerateTestRequest -> exchange)
    (save_ok : nat -> bool) (save_left : nat -> option sheet -> option sheet)
    (Rel : string -> string -> option string)
    (rootDir file : string) (st : process) (e : error) :
  outcome service rootDir file st = Err e ->
  (exists st',
     main_body now service save_ok save_left Rel rootDir file st = (st', Continue) /\
     row st' = row st /\ excelFile st' = excelFile st /\ saved st' = saved st /\
     saves st' = saves st /\ ticks st' = S (ticks st) /\
     (forall post,
        main_loop now service save_ok save_left Rel rootDir (file :: post) st
        = main_loop now service save_ok save_left Rel rootDir post st') /\
     (forall next, exists more,
        stdout (fst (main_body now service save_ok save_left Rel rootDir next st'))
        = (stdout st' ++ Processing next (now (ticks st')) :: more)%list)) /\
  (forall goFiles st0,
     (forall n req, sendRequest req (service n req) <> Panic) ->
     snd (main_loop now service save_ok save_left Rel rootDir goFiles st0) = Continue /\
     processing_files (stdout (fst (main_loop now service save_ok save_left Rel rootDir goFiles st0)))
     = (processing_files (stdout st0) ++ goFiles)%list) /\
  (forall req,
     sendRequest req MarshalFails = Err ErrMarshal /\
     sendRequest req NewRequestFails = Err ErrNewRequest /\
     sendRequest req DoFails = Err ErrSend /\
     (forall code body, code <> 200 ->
        sendRequest req (Response code body) = Err (ErrStatus code)) /\
     (forall pre rest m, sendRequest_loop pre zero_metrics = Ok m ->
        sendRequest req (Response 200 (pre ++ DecodeError :: rest)%list) = Err ErrStream)).
Proof.
  intros Hfail. split; [|split].
  - eexists. split; [exact (main_body_failed _ _ _ _ _ _ _ _ _ Hfail)|].
    fields. repeat split.
    + intros post. cbn [main_loop].
      now rewrite (main_body_failed _ _ _ _ _ _ _ _ _ Hfail).
    + intros next. apply main_body_dispatches.
  - intros goFiles st0 Hsafe. now apply main_loop_runs_through.
  - intros req. repeat split.
    + intros code body Hcode. simpl.
      destruct (Z.eqb_spec code 200); [contradiction | reflexivity].
    + intros pre rest m Hpre. simpl. now rewrite sendRequest_loop_app, Hpre.
Qed.

(** C6: the claim fails on the code.  The response for "/p/b.py" is a
    stream of well-formed JSON that holds a [summary] without its texts;
    [sendRequest] does not return an error for it, it panics at the
    unchecked assertion of line 238, nothing recovers the panic and the
    run ends at that file: "/p/c.py", enumerated after it, is never
    dispatched. *)
Theorem malformed_stream_ends_the_run :
  let root := Dir "p" true [File "b.py"; File "c.py"] in
  Walk "/p" root = Some ["/p/b.py"; "/p/c.py"] /\
  demo_service_bare 0 (request_for "/p" "/p/b.py")
  = Response 200 [Event {[ "dataType" := JString "summary" ]}] /\
  sendRequest (request_for "/p" "/p/b.py")
    (demo_service_bare 0 (request_for "/p" "/p/b.py")) = Panic /\
  exists st,
    main demo_now demo_service_bare demo_save demo_left demo_Rel "/p" root None
    = Some (st, Crash) /\
    processing_files (stdout st) = ["/p/b.py"] /\
    calls st = 1%nat /\ row st = 2%nat /\ saves st = 0%nat /\ saved st = None.
Proof.
  cbv zeta. split; [reflexivity|]. split; [reflexivity|]. split; [reflexivity|].
  eexists. split; [reflexivity|]. repeat split; reflexivity.
Qed.

(** C8, as stated, fails on the code: a record can be in the sheet without
    being in the file when the next file starts, because a failed [SaveAs]
    (here one that cannot create the file) is reported and the loop goes
    on. *)
Lemma persistence_counterexample :
  ~ (forall (now : nat -> Z) (service : nat -> GenerateTestRequest -> exchange)
       (save_ok : nat -> bool) (save_left : nat -> option sheet -> option sheet)
    (Rel : string -> string -> option string)
       (rootDir file : string) (st : process) (metrics : Metrics),
       outcome service rootDir file st = Ok metrics ->
       let st' := fst (main_body now service save_ok save_left Rel rootDir file st) in
       saved st' = Some (excelFile st')).
Proof.
  intros H.
  specialize (H (fun n => Z.of_nat n) (fun _ _ => Response 200 [])
                (fun _ => false) (fun _ _ => None) (fun _ _ => None) "/p" "/p/a.py"
                (initial_run 1 None) zero_metrics eq_refl).
  rewrite (main_body_succeeded (fun n => Z.of_nat n) (fun _ _ => Response 200 [])
             (fun _ => false) (fun _ _ => None) (fun _ _ => None) "/p" "/p/a.py"
             (initial_run 1 None) zero_metrics eq_refl) in H.
  discriminate H.
Qed.

(** C8, amended: the records never outnumber the files processed, and
    every successful file has its record written to the sheet and one
    [SaveAs] called before the next file is announced, one call per
    record; when that call succeeds the file holds the whole sheet, this
    record and the earlier ones; when it fails the failure is reported on
    the standard output and the loop goes on, whatever the file then
    holds. *)
Theorem record_saved_before_next_file
    (now : nat -> Z) (service : nat -> GenerateTestRequest -> exchange)
    (save_ok : nat -> bool) (save_left : nat -> option sheet -> option sheet)
    (Rel : string -> string -> option string)
    (rootDir file : string) (st : process) (metrics : Metrics) :
  outcome service rootDir file st = Ok metrics ->
  (exists st',
     main_body now service save_ok save_left Rel rootDir file st = (st', Continue) /\
     row st' = S (row st) /\ has_row (excelFile st') (row st) /\
     (forall r, has_row (excelFile st) r -> has_row (excelFile st') r) /\
     saves st' = S (saves st) /\
     (save_ok (saves st) = true ->
        saved st' = Some (excelFile st') /\
        stdout st'
        = (stdout st ++ [Processing file (now (ticks st));
                         Finished file (now (S (ticks st)))
                           (now (S (ticks st)) - now (ticks st));
                         SavedProgress file])%list) /\
     (save_ok (saves st) = false ->
        stdout st'
        = (stdout st ++ [Processing file (now (ticks st));
                         Finished file (now (S (ticks st)))
                           (now (S (ticks st)) - now (ticks st));
                         FailedSave file])%list) /\
     (forall next, exists more,
        stdout (fst (main_body now service save_ok save_left Rel rootDir next st'))
        = (stdout st' ++ Processing next (now (ticks st')) :: more)%list)) /\
  (forall goFiles st0,
     let st1 := fst (main_loop now service save_ok save_left Rel rootDir goFiles st0) in
     (row st0 <= row st1 <= row st0 + length goFiles)%nat /\
     (saves st1 + row st0 = saves st0 + row st1)%nat /\
     (forall r, has_row (excelFile st1) r ->
                has_row (excelFile st0) r \/ (row st0 <= r < row st1)%nat)).
Proof.
  intros Hok. split.
  - eexists. split; [exact (main_body_succeeded _ _ _ _ _ _ _ _ _ Hok)|].
    fields. split; [reflexivity|]. split; [|split; [|split; [reflexivity|split; [|split]]]].
    + unfold has_row, record_cells. rewrite set_row_first. eauto.
    + intros r Hr. unfold has_row in *.
      destruct (decide (r = row st)) as [->|Hne].
      * unfold record_cells. rewrite set_row_first. eauto.
      * now rewrite set_row_other.
    + intros ->. split; [reflexivity|]. now rewrite <- !app_assoc.
    + intros ->. now rewrite <- !app_assoc.
    + intros next. apply main_body_dispatches.
  - intros goFiles st0. apply main_loop_rows.
Qed.

Lemma demo_service_returns n req : sendRequest req (demo_service n req) <> Panic.
Proof. unfold demo_service. destruct (String.eqb _ _); discriminate. Qed.

Lemma failed_item_is_isolated_witness :
  outcome demo_service "/p" "/p/a.py" (initial_run 1 None) = Err (ErrStatus 500) /\
  processing_files
    (stdout (fst (main_loop demo_now demo_service demo_save demo_left demo_Rel "/p"
                    ["/p/a.py"; "/p/b.py"] (initial_run 1 None))))
  = ["/p/a.py"; "/p/b.py"].
Proof.
  split; [reflexivity|].
  destruct (failed_item_is_isolated demo_now demo_service demo_save demo_left demo_Rel
              "/p" "/p/a.py" (initial_run 1 None) (ErrStatus 500) eq_refl)
    as (_ & Hrun & _).
  exact (proj2 (Hrun ["/p/a.py"; "/p/b.py"] (initial_run 1 None) demo_service_returns)).
Defined.

Lemma record_saved_before_next_file_witness :
  exists metrics st',
    outcome demo_service "/p" "/p/b.py" (initial_run 1 None) = Ok metrics /\
    main_body demo_now demo_service demo_save demo_left demo_Rel "/p" "/p/b.py" (initial_run 1 None)
    = (st', Continue) /\
    row st' = 3%nat /\ saved st' = Some (excelFile st').
Proof.
  eexists.
  destruct (record_saved_before_next_file demo_now demo_service demo_save demo_left demo_Rel
              "/p" "/p/b.py" (initial_run 1 None) _ eq_refl)
    as ((st' & Hbody & Hrow & _ & _ & _ & Hsaved & _) & _).
  exists st'. split; [reflexivity|]. split; [exact Hbody|].
  split; [exact Hrow | exact (proj1 (Hsaved eq_refl))].
Defined.

Lemma test_exclusion_overmatches_witness :
  Strings.Contains "test_utils" "test_" = true /\
  snd (walk (Filepath.Join "/srv/app" "test_utils")
         (Dir "test_utils" true [File "helpers.py"]) []) = [].
Proof.
  split; [reflexivity|].
  exact (proj1 (proj2 test_exclusion_overmatches)
           "/srv/app" "test_utils" true [File "helpers.py"] [] eq_refl).
Defined.

(** ** The definitions at work *)

Example FindAllString_examples :
  FindAllString re_decimal "...running at 12, now 45.5%" = ["12"; "45.5"] /\
  FindAllString re_decimal "1.2.3 4. .5 007.250x" = ["1.2"; "3"; "4"; "5"; "007.250"] /\
  FindAllString re_decimal "no number" = [] /\
  extractNumbers "10% then 20%" = "20".
Proof. repeat split; reflexivity. Qed.

Example FindString_examples :
  FindString re_integer "Coverage increased by 12.5 points" = "12" /\
  FindString re_integer sentinel = "" /\
  FindString re_integer "5" = "5".
Proof. repeat split; reflexivity. Qed.

Example toFloat_examples :
  f64_value (toFloat "30") = Some (30 # 1) /\
  f64_value (toFloat "45.5") = Some (91 # 2) /\
  toFloat "0.1" = S754_finite false 7205759403792794 (-56) /\
  toFloat "9007199254740993" = S754_finite false 4503599627370496 1 /\
  toFloat "" = f64_zero /\ toFloat "1.2.3" = f64_zero /\
  f64_value (toFloat "-3.5") = Some (-7 # 2).
Proof. repeat split; reflexivity. Qed.

Example Walk_example :
  Walk "/home/dev/proj"
    (Dir "proj" true
       [Dir "app" true [File "__init__.py"; File "models.py"; File "notes.txt";
                        Dir "migrations" true [File "0001_initial.py"];
                        File "test_models.py"; File "views.py"];
        Dir "venv" true [File "site.py"];
        File "manage.py"])
  = Some ["/home/dev/proj/app/models.py"; "/home/dev/proj/app/views.py";
          "/home/dev/proj/manage.py"] /\
  Walk "/home/dev/proj" (Dir "proj" true [File "a.py"; Dir "locked" false []]) = None /\
  Filepath.Ext "/a/b.c/d" = "" /\ Filepath.Ext "/a/b.tar.gz" = ".gz".
Proof. repeat split; reflexivity. Qed.

Example main_example :
  let run := main demo_now demo_service demo_save demo_left demo_Rel "/p"
               (Dir "p" true [File "a.py"; File "b.py"]) None in
  option_map (fun r => (row (fst r), snd r, stdout (fst r))) run
  = Some (3%nat, Continue,
          [Processing "/p/a.py" 1700000005; FailedRequest "/p/a.py" (ErrStatus 500);
           Processing "/p/b.py" 1700000010; Finished "/p/b.py" 1700000015 5;
           SavedProgress "/p/b.py"]).
Proof. reflexivity. Qed.

(** * Further properties of the code *)

(** ** The values of the reducer *)

(** Whatever its argument, [toFloat] returns no infinity: a range error
    of [ParseFloat] gives zero. *)
Lemma toFloat_not_infinity s sg : toFloat s <> S754_infinity sg.
Proof.
  unfold toFloat, Strconv.ParseFloat.
  destruct (match s with
            | String c body =>
                if Ascii.eqb c "+" then (false, body)
                else if Ascii.eqb c "-" then (true, body) else (false, s)
            | EmptyString => (false, s)
            end) as [neg body].
  destruct (Strconv.read_digits 0 0 body) as [[m1 n1] rest].
  destruct (match rest with
            | String c after =>
                if Ascii.eqb c "." then Strconv.read_digits m1 0 after
                else (m1, 0%nat, rest)
            | EmptyString => (m1, 0%nat, rest)
            end) as [[m2 n2] rest'].
  destruct (n1 + n2)%nat; [discriminate|].
  destruct rest'; [|discriminate].
  destruct (Strconv.round_decimal neg m2 n2); discriminate.
Qed.

Lemma toFloat_finite c m : digit c = true -> f64_finite (toFloat (String c m)) = true.
Proof.
  intros Hc. pose proof (toFloat_nonneg c m Hc) as Hn.
  pose proof (toFloat_not_infinity (String c m)) as Hi.
  destruct (toFloat (String c m)) as [sg|sg| |sg mant e]; try reflexivity.
  - now elim (Hi sg).
  - discriminate Hn.
Qed.

(** What holds of zero and of the conversion of every text that starts
    with a digit holds of every field that the reducer computes. *)
Section FieldInvariant.

Variable P : float64 -> Prop.
Hypothesis P_zero : P f64_zero.
Hypothesis P_toFloat : forall c m, digit c = true -> P (toFloat (String c m)).

Lemma P_decimal text :
  (0 <? length (FindAllString re_decimal text))%nat = true ->
  P (toFloat (last_of (FindAllString re_decimal text))).
Proof.
  intros Hlen. destruct (has_digit text) eqn:Hd.
  - destruct (FindAllString_decimal_head text Hd) as (c & m & -> & Hc). auto.
  - apply FindAllString_decimal_nil in Hd. rewrite Hd in Hlen. discriminate.
Qed.

Lemma P_integer text :
  String.eqb (FindString re_integer text) "" = false ->
  P (toFloat (FindString re_integer text)).
Proof.
  intros Hne. destruct (has_digit text) eqn:Hd.
  - destruct (FindString_integer_head text Hd) as (c & m & -> & Hc). auto.
  - apply FindString_integer_nil in Hd. rewrite Hd in Hne. discriminate.
Qed.

Lemma summary_field_invariant (ev : event) key cur v :
  P cur -> summary_field ev key cur = Ok v -> P v.
Proof.
  intros Hcur. unfold summary_field.
  destruct (index ev key) as [| | |text| |]; simpl; try discriminate.
  intros [= <-].
  destruct (String.eqb (FindString re_integer text) "") eqn:Hm; simpl.
  - destruct (String.eqb text ""); [exact P_zero | exact Hcur].
  - now apply P_integer.
Qed.

Lemma sendRequest_event_invariant ev st st' :
  all_fields P st -> sendRequest_event ev st = Ok st' -> all_fields P st'.
Proof.
  intros (Hi & Hf & Hl & Ht & Ha). unfold sendRequest_event.
  set (init := if iface_eq_string (index ev "dataType") "calculatedCoverage"
               then _ else _).
  assert (Hinit : forall v, init = Ok v -> P v).
  { subst init. intros v.
    destruct (iface_eq_string (index ev "dataType") "calculatedCoverage");
      [|now intros [= <-]].
    destruct (index ev "calculatedCoverage") as [| | |text| |]; simpl; try discriminate.
    destruct (0 <? length (FindAllString re_decimal text))%nat eqn:Hlen;
      intros [= <-]; [now apply P_decimal | exact Hi]. }
  destruct init as [v| |]; simpl; try discriminate. specialize (Hinit v eq_refl).
  destruct (iface_eq_string (index ev "dataType") "summary").
  - destruct (index ev "coverageIncreased") as [| | |delta| |] eqn:Hdelta;
      simpl; try discriminate.
    destruct (summary_field ev "linesCovered" _) as [l| |] eqn:El; simpl; try discriminate.
    destruct (summary_field ev "totalLines" _) as [t| |] eqn:Et; simpl; try discriminate.
    destruct (summary_field ev "testAdded" _) as [a| |] eqn:Ea; simpl; try discriminate.
    intros [= <-]. unfold all_fields. simpl.
    apply (summary_field_invariant _ _ _ _ Hl) in El.
    apply (summary_field_invariant _ _ _ _ Ht) in Et.
    apply (summary_field_invariant _ _ _ _ Ha) in Ea.
    repeat split; try assumption.
    destruct (String.eqb (FindString re_integer delta) "") eqn:Hm; simpl;
      [|now apply P_integer].
    destruct (String.eqb delta sentinel); [exact Hinit|].
    destruct (String.eqb delta ""); [exact P_zero | exact Hf].
  - intros [= <-]. unfold all_fields. simpl. auto.
Qed.

Lemma sendRequest_loop_invariant stream : forall st m,
  all_fields P st -> sendRequest_loop stream st = Ok m -> all_fields P m.
Proof.
  induction stream as [|[ev|] rest IH]; intros st m Hst; simpl.
  - now intros [= <-].
  - destruct (sendRequest_event ev st) as [st'| |] eqn:He; simpl; try discriminate.
    apply IH. now apply (sendRequest_event_invariant ev st).
  - discriminate.
Qed.

End FieldInvariant.

(** X1: every field of a Metrics that the reducer returns is a finite
    number: no infinity and no NaN reaches the report, a text whose number
    is out of the range of float64 counting for zero. *)
Theorem metrics_finite (stream : list decoded) (m : Metrics) :
  sendRequest_loop stream zero_metrics = Ok m ->
  f64_finite (InitialCoverage m) = true /\ f64_finite (FinalCoverage m) = true /\
  f64_finite (LinesCovered m) = true /\ f64_finite (TotalLines m) = true /\
  f64_finite (TestAdded m) = true.
Proof.
  apply (sendRequest_loop_invariant (fun f => f64_finite f = true)).
  - reflexivity.
  - apply toFloat_finite.
  - repeat split; reflexivity.
Qed.

Lemma metrics_finite_witness :
  let huge := "1" ++ string_of_list_ascii (repeat "0"%char 400) in
  exists m,
    sendRequest_loop [Event (calc_event huge); Event (summary_event "7" huge "" "x")]
      zero_metrics = Ok m /\
    f64_finite (InitialCoverage m) = true /\ f64_finite (FinalCoverage m) = true /\
    f64_finite (LinesCovered m) = true /\ f64_finite (TotalLines m) = true /\
    f64_finite (TestAdded m) = true.
Proof.
  eexists. split; [vm_compute; reflexivity|].
  apply (metrics_finite
           [Event (calc_event ("1" ++ string_of_list_ascii (repeat "0"%char 400)));
            Event (summary_event "7" ("1" ++ string_of_list_ascii (repeat "0"%char 400))
                     "" "x")]).
  vm_compute. reflexivity.
Defined.

(** ** The extraction of numbers *)

Lemma FindAllString_decimal_length text :
  (0 <? length (FindAllString re_decimal text))%nat = has_digit text.
Proof.
  destruct (has_digit text) eqn:Hd.
  - destruct (FindAllString re_decimal text) eqn:Hall; [|reflexivity].
    apply FindAllString_decimal_nil in Hall. congruence.
  - apply FindAllString_decimal_nil in Hd. now rewrite Hd.
Qed.

(** X2: [extractNumbers] returns the empty string exactly on a text
    without digit; otherwise it returns a decimal numeral (digits,
    optionally a point and digits) that occurs in the text with no digit
    after it.  The [calculatedCoverage] branch of [sendRequest] computes the
    same thing inline: it sets [initialCoverage] to the conversion of
    [extractNumbers] of the text, and leaves it when that is empty. *)
Theorem extractNumbers_last_numeral (s : string) :
  (extractNumbers s = "" <-> has_digit s = false) /\
  (has_digit s = true ->
   exists pre post,
     s = pre ++ extractNumbers s ++ post /\
     is_decimal (extractNumbers s) = true /\ has_digit post = false) /\
  (forall (ev : event) st,
     ev !! "dataType" = Some (JString "calculatedCoverage") ->
     ev !! "calculatedCoverage" = Some (JString s) ->
     sendRequest_event ev st
     = Ok (set_initial (if String.eqb (extractNumbers s) "" then InitialCoverage st
                        else toFloat (extractNumbers s)) st)).
Proof.
  unfold extractNumbers. rewrite FindAllString_decimal_length.
  destruct (has_digit s) eqn:Hd.
  - destruct (FindAllString_decimal_head s Hd) as (c & m & Hlast & Hc).
    split; [|split].
    + rewrite Hlast. split; discriminate.
    + intros _. now apply FindAllString_decimal_last.
    + intros ev st H1 H2. rewrite (calculatedCoverage_step ev st s H1 H2).
      rewrite FindAllString_decimal_length, Hd, Hlast. reflexivity.
  - split; [|split].
    + tauto.
    + discriminate.
    + intros ev st H1 H2. rewrite (calculatedCoverage_step ev st s H1 H2).
      now rewrite FindAllString_decimal_length, Hd.
Qed.

Lemma extractNumbers_last_numeral_witness :
  extractNumbers "at 12, now 45.5%" = "45.5" /\
  exists pre post,
    "at 12, now 45.5%" = pre ++ extractNumbers "at 12, now 45.5%" ++ post /\
    is_decimal (extractNumbers "at 12, now 45.5%") = true /\ has_digit post = false.
Proof.
  split; [reflexivity|].
  exact (proj1 (proj2 (extractNumbers_last_numeral "at 12, now 45.5%")) eq_refl).
Defined.

Lemma all_digits_take_class s : all_digits (take_class digit s) = true.
Proof.
  induction s as [|c s IH]; simpl; [reflexivity|].
  destruct (digit c) eqn:Hc; simpl; [now rewrite Hc | reflexivity].
Qed.

Lemma starts_with_digit_skip s : starts_with_digit (skip_class digit s) = false.
Proof.
  induction s as [|c s IH]; simpl; [reflexivity|].
  destruct (digit c) eqn:Hc; simpl; [exact IH | exact Hc].
Qed.

(** The first match of [\d+] is the first run of digits of the text, taken
    whole. *)
Lemma FindString_integer_first text :
  has_digit text = true ->
  exists pre post,
    text = pre ++ FindString re_integer text ++ post /\
    has_digit pre = false /\
    all_digits (FindString re_integer text) = true /\
    starts_with_digit (FindString re_integer text) = true /\
    starts_with_digit post = false.
Proof.
  induction text as [|c s IH]; rewrite FindString_integer_eq; simpl; [discriminate|].
  destruct (digit c) eqn:Hc; simpl.
  - intros _. exists "", (skip_class digit s). repeat split.
    + string_app. now rewrite take_skip_class.
    + now rewrite Hc, all_digits_take_class.
    + exact Hc.
    + apply starts_with_digit_skip.
  - intros Hs. destruct (IH Hs) as (pre & post & Heq & Hpre & Hm & Hh & Hpost).
    exists (String c pre), post. repeat split; try assumption.
    + rewrite app_String. now f_equal.
    + simpl. now rewrite Hc.
Qed.

(** X3: a field of a [summary] event that holds a text with a digit takes
    the conversion of the first run of digits of that text, taken whole:
    no digit comes before the run and none follows it directly; a decimal
    part, as in "12.5", is left out. *)
Theorem summary_field_first_run (ev : event) (key text : string) (cur : float64) :
  ev !! key = Some (JString text) ->
  has_digit text = true ->
  exists pre m post,
    text = pre ++ m ++ post /\ has_digit pre = false /\
    all_digits m = true /\ starts_with_digit m = true /\
    starts_with_digit post = false /\
    summary_field ev key cur = Ok (toFloat m).
Proof.
  intros Hkey Hd.
  destruct (FindString_integer_first text Hd) as (pre & post & Heq & Hpre & Hm & Hh & Hpost).
  exists pre, (FindString re_integer text), post. repeat split; try assumption.
  rewrite (summary_field_text ev key text cur Hkey).
  destruct (FindString re_integer text); [discriminate | reflexivity].
Qed.

Lemma summary_field_first_run_witness :
  let ev := summary_event "up 3" "about 12.5 of 40 lines" "40" "2" in
  ev !! "linesCovered" = Some (JString "about 12.5 of 40 lines") /\
  has_digit "about 12.5 of 40 lines" = true /\
  exists pre m post,
    "about 12.5 of 40 lines" = pre ++ m ++ post /\ has_digit pre = false /\
    all_digits m = true /\ starts_with_digit m = true /\
    starts_with_digit post = false /\
    summary_field ev "linesCovered" f64_zero = Ok (toFloat m).
Proof.
  split; [reflexivity|]. split; [reflexivity|].
  exact (summary_field_first_run
           (summary_event "up 3" "about 12.5 of 40 lines" "40" "2")
           "linesCovered" "about 12.5 of 40 lines" f64_zero eq_refl eq_refl).
Defined.

(** ** The outcomes of the reducer *)

(** An event that is processed carries the texts of its variant. *)
Lemma event_ok_texts ev st st' :
  sendRequest_event ev st = Ok st' -> carries_texts (Event ev).
Proof.
  unfold sendRequest_event, carries_texts. intros H. split.
  - intros Hcalc. rewrite Hcalc in H.
    destruct (index ev "calculatedCoverage") as [| | |text| |]; try discriminate H.
    eauto.
  - intros Hsum. rewrite Hsum in H.
    destruct (if iface_eq_string (index ev "dataType") "calculatedCoverage"
              then _ else _) as [v| |]; simpl in H; try discriminate H.
    unfold summary_field in H.
    destruct (index ev "coverageIncreased") as [| | |delta| |]; try discriminate H.
    destruct (index ev "linesCovered") as [| | |lines| |]; try discriminate H.
    destruct (index ev "totalLines") as [| | |total| |]; try discriminate H.
    destruct (index ev "testAdded") as [| | |added| |]; try discriminate H.
    eauto 10.
Qed.

(** One event never ends in an error: it is processed or it panics. *)
Lemma event_not_err ev st e : sendRequest_event ev st <> Err e.
Proof.
  unfold sendRequest_event, summary_field.
  destruct (iface_eq_string (index ev "dataType") "calculatedCoverage").
  - destruct (index ev "calculatedCoverage") as [| | |text| |]; try discriminate.
    simpl. destruct (0 <? length (FindAllString re_decimal text))%nat; simpl;
      (destruct (iface_eq_string (index ev "dataType") "summary"); [|discriminate]);
      destruct (index ev "coverageIncreased") as [| | |delta| |]; try discriminate;
      destruct (index ev "linesCovered") as [| | |lines| |]; try discriminate;
      destruct (index ev "totalLines") as [| | |total| |]; try discriminate;
      destruct (index ev "testAdded") as [| | |added| |]; discriminate.
  - simpl. destruct (iface_eq_string (index ev "dataType") "summary"); [|discriminate].
    destruct (index ev "coverageIncreased") as [| | |delta| |]; try discriminate;
      destruct (index ev "linesCovered") as [| | |lines| |]; try discriminate;
      destruct (index ev "totalLines") as [| | |total| |]; try discriminate;
      destruct (index ev "testAdded") as [| | |added| |]; discriminate.
Qed.

(** X4: the three outcomes of the reducer.  It returns a Metrics exactly
    when every decoding succeeds and every event carries, as texts, the
    fields of its variant; it returns an error only for a failed decoding,
    and that error is the stream error; it panics only on an event that
    lacks one of its texts. *)
Theorem reducer_outcomes (stream : list decoded) (st : Metrics) :
  ((exists m, sendRequest_loop stream st = Ok m) <-> Forall carries_texts stream) /\
  (forall e, sendRequest_loop stream st = Err e ->
             e = ErrStream /\ In DecodeError stream) /\
  (sendRequest_loop stream st = Panic ->
   exists ev, In (Event ev) stream /\ ~ carries_texts (Event ev)).
Proof.
  split; [split|split].
  - revert st. induction stream as [|[ev|] rest IH]; intros st [m Hm].
    + constructor.
    + simpl in Hm.
      destruct (sendRequest_event ev st) as [st'| |] eqn:He; simpl in Hm;
        try discriminate Hm.
      constructor; [now apply (event_ok_texts ev st st') | apply (IH st'); eauto].
    + discriminate Hm.
  - apply text_stream_returns.
  - revert st. induction stream as [|[ev|] rest IH]; intros st e He; simpl in He.
    + discriminate He.
    + destruct (sendRequest_event ev st) as [st'|e'|] eqn:Hev; simpl in He.
      * destruct (IH st' e He) as [-> Hin]. split; [reflexivity | now right].
      * now elim (event_not_err ev st e').
      * discriminate He.
    + injection He as <-. split; [reflexivity | now left].
  - revert st. induction stream as [|[ev|] rest IH]; intros st Hp; simpl in Hp.
    + discriminate Hp.
    + destruct (sendRequest_event ev st) as [st'|e'|] eqn:Hev; simpl in Hp.
      * destruct (IH st' Hp) as (ev' & Hin & Hno). exists ev'. split; [now right | exact Hno].
      * discriminate Hp.
      * exists ev. split; [now left|]. intros Hc.
        destruct (text_stream_returns [Event ev] st) as [m Hm];
          [constructor; [exact Hc | constructor]|].
        simpl in Hm. rewrite Hev in Hm. discriminate Hm.
    + discriminate Hp.
Qed.

Lemma reducer_outcomes_witness :
  let stream := [Event (calc_event "30%"); DecodeError; Event ∅] in
  sendRequest_loop stream zero_metrics = Err ErrStream /\
  ErrStream = ErrStream /\ In DecodeError stream.
Proof.
  split; [reflexivity|].
  exact (proj1 (proj2 (reducer_outcomes [Event (calc_event "30%"); DecodeError; Event ∅]
                         zero_metrics)) ErrStream eq_refl).
Defined.

Lemma summary_field_again (ev : event) key cur v :
  summary_field ev key cur = Ok v -> summary_field ev key v = Ok v.
Proof.
  unfold summary_field.
  destruct (index ev key) as [| | |text| |]; simpl; try discriminate.
  intros [= <-]. f_equal.
  destruct (String.eqb (FindString re_integer text) ""); simpl; [|reflexivity].
  now destruct (String.eqb text "").
Qed.

Lemma sendRequest_event_again (ev : event) (st st' : Metrics) :
  sendRequest_event ev st = Ok st' -> sendRequest_event ev st' = Ok st'.
Proof.
  assert (Htail : forall v : float64,
    (if iface_eq_string (index ev "dataType") "summary" then
       let finalCoverage := FinalCoverage st in
       let '(coverageStr, ok) := assert_string_ok (index ev "coverageIncreased") in
       let finalCoverage :=
         if negb ok || String.eqb coverageStr "" then f64_zero else finalCoverage in
       let finalCoverage :=
         if iface_eq_string (index ev "coverageIncreased") sentinel
         then v else finalCoverage in
       let* text := assert_string (index ev "coverageIncreased") in
       let match_ := FindString re_integer text in
       let finalCoverage :=
         if negb (String.eqb match_ "") then toFloat match_ else finalCoverage in
       let* linesCovered := summary_field ev "linesCovered" (LinesCovered st) in
       let* totalLines := summary_field ev "totalLines" (TotalLines st) in
       let* testAdded := summary_field ev "testAdded" (TestAdded st) in
       Ok {| InitialCoverage := v; FinalCoverage := finalCoverage;
             LinesCovered := linesCovered; TotalLines := totalLines;
             TestAdded := testAdded |}
     else
       Ok {| InitialCoverage := v; FinalCoverage := FinalCoverage st;
             LinesCovered := LinesCovered st; TotalLines := TotalLines st;
             TestAdded := TestAdded st |}) = Ok st' ->
    (if iface_eq_string (index ev "dataType") "summary" then
       let finalCoverage := FinalCoverage st' in
       let '(coverageStr, ok) := assert_string_ok (index ev "coverageIncreased") in
       let finalCoverage :=
         if negb ok || String.eqb coverageStr "" then f64_zero else finalCoverage in
       let finalCoverage :=
         if iface_eq_string (index ev "coverageIncreased") sentinel
         then v else finalCoverage in
       let* text := assert_string (index ev "coverageIncreased") in
       let match_ := FindString re_integer text in
       let finalCoverage :=
         if negb (String.eqb match_ "") then toFloat match_ else finalCoverage in
       let* linesCovered := summary_field ev "linesCovered" (LinesCovered st') in
       let* totalLines := summary_field ev "totalLines" (TotalLines st') in
       let* testAdded := summary_field ev "testAdded" (TestAdded st') in
       Ok {| InitialCoverage := v; FinalCoverage := finalCoverage;
             LinesCovered := linesCovered; TotalLines := totalLines;
             TestAdded := testAdded |}
     else
       Ok {| InitialCoverage := v; FinalCoverage := FinalCoverage st';
             LinesCovered := LinesCovered st'; TotalLines := TotalLines st';
             TestAdded := TestAdded st' |}) = Ok st' /\ InitialCoverage st' = v).
  { intros v. destruct (iface_eq_string (index ev "dataType") "summary").
    - destruct (index ev "coverageIncreased") as [| | |delta| |]; simpl; try discriminate.
      destruct (summary_field ev "linesCovered" (LinesCovered st)) as [l| |] eqn:El;
        simpl; try discriminate.
      destruct (summary_field ev "totalLines" (TotalLines st)) as [t| |] eqn:Et;
        simpl; try discriminate.
      destruct (summary_field ev "testAdded" (TestAdded st)) as [a| |] eqn:Ea;
        simpl; try discriminate.
      intros [= <-]. simpl.
      rewrite (summary_field_again _ _ _ _ El), (summary_field_again _ _ _ _ Et),
              (summary_field_again _ _ _ _ Ea). simpl.
      split; [|reflexivity]. f_equal. f_equal.
      destruct (String.eqb (FindString re_integer delta) ""); simpl; [|reflexivity].
      destruct (String.eqb delta sentinel); [reflexivity|].
      now destruct (String.eqb delta "").
    - intros [= <-]. simpl. split; reflexivity. }
  unfold sendRequest_event.
  destruct (iface_eq_string (index ev "dataType") "calculatedCoverage").
  - destruct (index ev "calculatedCoverage") as [| | |text| |]; simpl; try discriminate.
    destruct (0 <? length (FindAllString re_decimal text))%nat; simpl; intros H.
    + exact (proj1 (Htail _ H)).
    + destruct (Htail _ H) as [H1 H2]. rewrite H2. exact H1.
  - simpl. intros H. destruct (Htail _ H) as [H1 H2]. rewrite H2. exact H1.
Qed.

(** X5: processing an event a second time, directly after the first,
    changes nothing: the state reached after an event is a fixed point of
    that event, so that a stream in which an event is delivered twice in a
    row has the outcome, value, error or panic, of the stream in which it
    is delivered once. *)
Theorem event_idempotent (ev : event) :
  (forall st st' : Metrics,
     sendRequest_event ev st = Ok st' -> sendRequest_event ev st' = Ok st') /\
  (forall (pre post : list decoded) (st0 : Metrics),
     sendRequest_loop (pre ++ Event ev :: Event ev :: post)%list st0
     = sendRequest_loop (pre ++ Event ev :: post)%list st0).
Proof.
  split; [apply sendRequest_event_again|].
  intros pre post st0. rewrite !sendRequest_loop_app.
  destruct (sendRequest_loop pre st0) as [st| |]; [|reflexivity|reflexivity].
  cbn [sendRequest_loop bind].
  destruct (sendRequest_event ev st) as [st'| |] eqn:E; cbn [bind];
    [|reflexivity|reflexivity].
  now rewrite (sendRequest_event_again ev st st' E).
Qed.

Lemma event_idempotent_witness :
  let ev := summary_event sentinel "12 lines" "" "none" in
  let st := set_initial (toFloat "30") zero_metrics in
  (exists st',
     sendRequest_event ev st = Ok st' /\ sendRequest_event ev st' = Ok st') /\
  sendRequest_loop [Event (calc_event "30%"); Event ev; Event ev] zero_metrics
  = sendRequest_loop [Event (calc_event "30%"); Event ev] zero_metrics.
Proof.
  split.
  - eexists. split; [reflexivity|].
    apply (proj1 (event_idempotent (summary_event sentinel "12 lines" "" "none"))
             (set_initial (toFloat "30") zero_metrics)).
    reflexivity.
  - exact (proj2 (event_idempotent (summary_event sentinel "12 lines" "" "none"))
             [Event (calc_event "30%")] [] zero_metrics).
Defined.

(** X6: the two variants write to separate locals.  An event that is no
    [calculatedCoverage] leaves [initialCoverage] as it is, and an event
    that is no [summary] leaves the four other locals as they are. *)
Theorem event_frame (ev : event) (st st' : Metrics) :
  sendRequest_event ev st = Ok st' ->
  (iface_eq_string (index ev "dataType") "calculatedCoverage" = false ->
   InitialCoverage st' = InitialCoverage st) /\
  (iface_eq_string (index ev "dataType") "summary" = false ->
   FinalCoverage st' = FinalCoverage st /\ LinesCovered st' = LinesCovered st /\
   TotalLines st' = TotalLines st /\ TestAdded st' = TestAdded st).
Proof.
  unfold sendRequest_event. intros H. split.
  - intros Hc. rewrite Hc in H. simpl in H.
    destruct (iface_eq_string (index ev "dataType") "summary").
    + destruct (index ev "coverageIncreased") as [| | |delta| |];
        simpl in H; try discriminate H.
      destruct (summary_field ev "linesCovered" _) as [l| |]; simpl in H; try discriminate H.
      destruct (summary_field ev "totalLines" _) as [t| |]; simpl in H; try discriminate H.
      destruct (summary_field ev "testAdded" _) as [a| |]; simpl in H; try discriminate H.
      now injection H as <-.
    + now injection H as <-.
  - intros Hs. rewrite Hs in H.
    destruct (if iface_eq_string (index ev "dataType") "calculatedCoverage"
              then _ else _) as [v| |]; simpl in H; try discriminate H.
    injection H as <-. simpl. auto.
Qed.

Lemma event_frame_witness :
  let ev := calc_event "now 61.5%" in
  let st := {| InitialCoverage := f64_zero; FinalCoverage := f64_of_Z 5;
               LinesCovered := f64_of_Z 7; TotalLines := f64_of_Z 9;
               TestAdded := f64_of_Z 2 |} in
  exists st',
    sendRequest_event ev st = Ok st' /\
    FinalCoverage st' = f64_of_Z 5 /\ LinesCovered st' = f64_of_Z 7 /\
    TotalLines st' = f64_of_Z 9 /\ TestAdded st' = f64_of_Z 2.
Proof.
  eexists. split; [reflexivity|].
  exact (proj2 (event_frame (calc_event "now 61.5%")
                  {| InitialCoverage := f64_zero; FinalCoverage := f64_of_Z 5;
                     LinesCovered := f64_of_Z 7; TotalLines := f64_of_Z 9;
                     TestAdded := f64_of_Z 2 |} _ eq_refl) eq_refl).
Defined.

(** X7: an event whose discriminator is neither "calculatedCoverage" nor
    "summary" (absent and non-text discriminators included) can be taken
    out of a stream, wherever it stands, without changing the outcome. *)
Theorem unrecognised_event_removable (a b : list decoded) (d : decoded) (st : Metrics) :
  unrecognised d ->
  sendRequest_loop (a ++ d :: b)%list st = sendRequest_loop (a ++ b)%list st.
Proof.
  intros Hd. rewrite !sendRequest_loop_app.
  destruct (sendRequest_loop a st) as [st1| |]; simpl; try reflexivity.
  destruct d as [ev|]; [|contradiction]. destruct Hd as [H1 H2].
  now rewrite (unrecognised_event_skipped ev st1 H1 H2).
Qed.

Lemma unrecognised_event_removable_witness :
  let progress : event := {[ "dataType" := JString "progress"; "percent" := JNumber (f64_of_Z 40) ]} in
  unrecognised (Event progress) /\
  sendRequest_loop
    [Event (calc_event "30%"); Event progress; Event (summary_event sentinel "1" "2" "3")]
    zero_metrics
  = sendRequest_loop
      [Event (calc_event "30%"); Event (summary_event sentinel "1" "2" "3")] zero_metrics.
Proof.
  split; [split; reflexivity|].
  apply (unrecognised_event_removable [Event (calc_event "30%")]
           [Event (summary_event sentinel "1" "2" "3")]).
  split; reflexivity.
Defined.

Lemma last_summary_with_digits_wins_witness :
  let ev := summary_event "up by 12 points" "120 of 400" "400 lines" "3 tests" in
  let pre := [Event (summary_event "5" "7" "9" "2")] in
  sendRequest_loop (pre ++ [Event ev])%list zero_metrics
  = Ok {| InitialCoverage := f64_zero;
          FinalCoverage := toFloat "12"; LinesCovered := toFloat "120";
          TotalLines := toFloat "400"; TestAdded := toFloat "3" |}.
Proof.
  exact (last_summary_with_digits_wins
           (summary_event "up by 12 points" "120 of 400" "400 lines" "3 tests")
           [Event (summary_event "5" "7" "9" "2")] zero_metrics
           {| InitialCoverage := f64_zero; FinalCoverage := f64_of_Z 5;
              LinesCovered := f64_of_Z 7; TotalLines := f64_of_Z 9;
              TestAdded := f64_of_Z 2 |}
           "up by 12 points" "120 of 400" "400 lines" "3 tests"
           eq_refl eq_refl eq_refl eq_refl eq_refl eq_refl eq_refl eq_refl eq_refl
           eq_refl).
Defined.

(** ** The enumeration of the files *)

Lemma app_Empty_r (s : string) : s ++ "" = s.
Proof. induction s as [|c s IH]; string_app; [reflexivity | now rewrite IH]. Qed.

Lemma string_of_list_ascii_app (a b : list ascii) :
  string_of_list_ascii (a ++ b)%list = string_of_list_ascii a ++ string_of_list_ascii b.
Proof.
  induction a as [|c a IH]; simpl; string_app; [reflexivity | now rewrite IH].
Qed.

Lemma ext_scan_suffix rev_path : forall suffix,
  exists stem,
    string_of_list_ascii (rev rev_path ++ suffix)%list
    = stem ++ Filepath.ext_scan rev_path suffix.
Proof.
  induction rev_path as [|c more IH]; intros suffix; simpl.
  - eexists. now rewrite app_Empty_r.
  - destruct (Ascii.eqb c "/"); [eexists; now rewrite app_Empty_r|].
    rewrite <- app_assoc. simpl.
    destruct (Ascii.eqb c ".").
    + exists (string_of_list_ascii (rev more)). apply string_of_list_ascii_app.
    + apply IH.
Qed.

(** The extension of a path is a suffix of it. *)
Lemma Ext_suffix path : exists stem, path = stem ++ Filepath.Ext path.
Proof.
  unfold Filepath.Ext.
  destruct (ext_scan_suffix (rev (list_ascii_of_string path)) []) as [stem H].
  exists stem. rewrite <- H, rev_involutive, app_nil_r.
  now rewrite string_of_list_ascii_of_string.
Qed.

Lemma HasPrefix_refl s : Strings.HasPrefix s s = true.
Proof. induction s as [|c s IH]; simpl; [reflexivity|]. now rewrite Ascii.eqb_refl. Qed.

Lemma HasPrefix_Join dir name root :
  Strings.HasPrefix dir root = true ->
  Strings.HasPrefix (Filepath.Join dir name) root = true.
Proof.
  intros H. unfold Filepath.Join.
  destruct (String.eqb dir "/") eqn:E.
  - apply String.eqb_eq in E. subst dir. now apply HasPrefix_app.
  - now apply HasPrefix_app.
Qed.

Section Collected.

Variable root : string.

Local Abbreviation python_source := (python_source root).

Lemma walk_fn_collects path isDir name err goFiles :
  Strings.HasPrefix path root = true ->
  Forall python_source goFiles ->
  Forall python_source (snd (walk_fn path isDir name err goFiles)).
Proof.
  intros Hp H. unfold walk_fn. destruct err; [exact H|].
  destruct (isDir && _); [exact H|].
  destruct (negb isDir && String.eqb (Filepath.Ext path) ".py"
            && negb (isTestFile path) && negb (String.eqb name "__init__.py")) eqn:E;
    [|exact H].
  simpl. apply Forall_app. split; [exact H|]. constructor; [|constructor].
  apply andb_true_iff in E as [E _]. apply andb_true_iff in E as [E Ht].
  apply andb_true_iff in E as [_ Ee].
  repeat split; [now apply String.eqb_eq | now apply negb_true_iff | exact Hp].
Qed.

Lemma walk_entries_collects path entries :
  Strings.HasPrefix path root = true ->
  Forall (fun n => forall p g, Strings.HasPrefix p root = true ->
                               Forall python_source g ->
                               Forall python_source (snd (walk p n g))) entries ->
  forall g, Forall python_source g ->
            Forall python_source (snd (walk_entries walk path entries g)).
Proof.
  intros Hp. induction 1 as [|child rest Hchild _ IH]; intros g Hg; simpl; [exact Hg|].
  specialize (Hchild (Filepath.Join path (node_name child)) g
                (HasPrefix_Join _ _ _ Hp) Hg).
  destruct (walk _ child g) as [[| |] g']; simpl in *; auto.
  destruct (is_dir child); simpl; auto.
Qed.

Lemma walk_collects n : forall path g,
  Strings.HasPrefix path root = true ->
  Forall python_source g -> Forall python_source (snd (walk path n g)).
Proof.
  induction n as [name|name|name readable entries IH] using node_induction;
    intros path g Hp Hg; cbn [walk]; try now apply walk_fn_collects.
  pose proof (walk_fn_collects path true name (negb readable) g Hp Hg) as H1.
  destruct (walk_fn path true name (negb readable) g) as [err1 g1]. simpl in H1.
  destruct (negb readable); [exact H1|].
  destruct err1; simpl; try exact H1.
  now apply walk_entries_collects.
Qed.

End Collected.

(** X8: every file that [main] sends to the service lies under the working
    directory, has the extension ".py" (its path ends in ".py") and has
    neither "_test.go" nor "test_" anywhere in its path. *)
Theorem enumerated_files_are_python_sources
    (rootDir : string) (root : node) (goFiles : list string) (p : string) :
  Walk rootDir root = Some goFiles -> In p goFiles ->
  Strings.HasPrefix p rootDir = true /\
  Filepath.Ext p = ".py" /\ (exists stem, p = stem ++ ".py") /\
  Strings.Contains p "_test.go" = false /\ Strings.Contains p "test_" = false.
Proof.
  intros HW Hin. unfold Walk in HW.
  pose proof (walk_collects rootDir root rootDir [] (HasPrefix_refl rootDir)
                ltac:(constructor)) as H.
  assert (Hp : python_source rootDir p).
  { destruct (walk rootDir root []) as [[| |] g]; simpl in H; try discriminate;
      injection HW as <-; rewrite Forall_forall in H; apply H;
      now apply list_elem_of_In. }
  destruct Hp as (He & Ht & Hpre). unfold isTestFile in Ht.
  apply orb_false_iff in Ht as [Ht1 Ht2].
  repeat split; try assumption.
  destruct (Ext_suffix p) as [stem Hs]. exists stem. now rewrite He in Hs.
Qed.

Lemma enumerated_files_are_python_sources_witness :
  let root := Dir "proj" true
                [Dir "app" true [File "models.py"; File "notes.txt"; File "conftest_.py"];
                 File "setup.py.bak"] in
  Walk "/home/dev/proj" root = Some ["/home/dev/proj/app/models.py"] /\
  Strings.HasPrefix "/home/dev/proj/app/models.py" "/home/dev/proj" = true /\
  Filepath.Ext "/home/dev/proj/app/models.py" = ".py".
Proof.
  split; [reflexivity|].
  destruct (enumerated_files_are_python_sources "/home/dev/proj"
              (Dir "proj" true
                 [Dir "app" true [File "models.py"; File "notes.txt"; File "conftest_.py"];
                  File "setup.py.bak"])
              ["/home/dev/proj/app/models.py"] "/home/dev/proj/app/models.py"
              eq_refl (or_introl eq_refl)) as (H1 & H2 & _).
  split; assumption.
Defined.

(** X9: a readable directory named "venv", "migrations" or "__pycache__"
    is passed over whole: whatever it holds, files, unreadable
    directories or entries that cannot be examined, the walk goes on with
    the next entry and the list of files is as it was. *)
Theorem denied_directory_is_skipped
    (path name : string) (entries rest : list node) (goFiles : list string) :
  name = "venv" \/ name = "migrations" \/ name = "__pycache__" ->
  walk_entries walk path (Dir name true entries :: rest) goFiles
  = walk_entries walk path rest goFiles.
Proof.
  intros [-> | [-> | ->]]; reflexivity.
Qed.

Lemma denied_directory_is_skipped_witness :
  walk_entries walk "/p"
    [Dir "venv" true [Broken "lost"; Dir "locked" false []; File "site.py"];
     File "z.py"] []
  = (WalkNil, ["/p/z.py"]).
Proof.
  rewrite (denied_directory_is_skipped "/p" "venv"
             [Broken "lost"; Dir "locked" false []; File "site.py"]
             [File "z.py"] [] (or_introl eq_refl)).
  reflexivity.
Defined.

Lemma walk_entries_app path (a b : list node) : forall g,
  walk_entries walk path (a ++ b)%list g
  = match walk_entries walk path a g with
    | (WalkNil, g') => walk_entries walk path b g'
    | stopped => stopped
    end.
Proof.
  induction a as [|child a IH]; intros g; simpl; [reflexivity|].
  destruct (walk _ child g) as [[| |] g']; simpl; auto.
  destruct (is_dir child); simpl; auto.
Qed.

Lemma walk_fn_error path isDir name goFiles :
  walk_fn path isDir name true goFiles = (WalkErr, goFiles).
Proof. reflexivity. Qed.

Lemma walk_fn_file path name goFiles :
  fst (walk_fn path false name false goFiles) = WalkNil.
Proof. unfold walk_fn. cbn [andb negb]. now destruct (_ && _). Qed.

Lemma walk_fn_dir path name goFiles :
  walk_fn path true name false goFiles
  = (if skipped_name name then SkipDir else WalkNil, goFiles).
Proof.
  unfold walk_fn, skipped_name. cbn [andb negb].
  now destruct (String.eqb name "venv" || String.eqb name "migrations"
                || String.eqb name "__pycache__").
Qed.

(** What the walk of a list of entries comes to, given what the walk of
    each of them does. *)
Lemma walk_entries_blocked path entries :
  Forall (fun n => forall p g,
            (fst (walk p n g) = WalkErr <-> blocked n = true) /\
            (fst (walk p n g) = SkipDir -> is_dir n = true)) entries ->
  forall g,
    (fst (walk_entries walk path entries g) = WalkErr
     <-> existsb blocked entries = true) /\
    fst (walk_entries walk path entries g) <> SkipDir.
Proof.
  induction 1 as [|child rest Hchild _ IH]; intros g; cbn [walk_entries existsb].
  - split; [split; discriminate | discriminate].
  - destruct (Hchild (Filepath.Join path (node_name child)) g) as [Herr Hskip].
    destruct (walk (Filepath.Join path (node_name child)) child g) as [[| |] g'];
      cbn [fst] in *.
    + destruct (blocked child); [discriminate (proj2 Herr eq_refl)|]. apply IH.
    + rewrite (Hskip eq_refl).
      destruct (blocked child); [discriminate (proj2 Herr eq_refl)|]. apply IH.
    + rewrite (proj1 Herr eq_refl). split; [now split | discriminate].
Qed.

(** The walk of a tree ends with an error exactly when the tree is
    [blocked]; only a directory is passed over. *)
Lemma walk_blocked n : forall path g,
  (fst (walk path n g) = WalkErr <-> blocked n = true) /\
  (fst (walk path n g) = SkipDir -> is_dir n = true).
Proof.
  induction n as [name|name|name readable entries IH] using node_induction;
    intros path g; cbn [walk blocked is_dir].
  - rewrite walk_fn_file. split; [split; discriminate | discriminate].
  - rewrite walk_fn_error. split; [now split | discriminate].
  - destruct readable; cbn [negb orb].
    + rewrite walk_fn_dir. destruct (skipped_name name); cbn [negb andb fst].
      * split; [split; discriminate | reflexivity].
      * destruct (walk_entries_blocked path entries IH g) as [Herr _].
        split; [exact Herr | reflexivity].
    + rewrite walk_fn_error. split; [now split | reflexivity].
Qed.

(** X10: a tree in which the walk comes upon an entry that cannot be
    examined, or a directory that cannot be listed (were it named "venv"),
    at any depth, makes [filepath.Walk] return an error, and [main]
    returns without sending a request, also for the files collected before
    that entry; a tree without such an entry is walked to its end.  In the
    directory that holds such an entry, the entries after it are not
    visited: the walk does not depend on them. *)
Theorem walk_error_stops_main
    (now : nat -> Z) (service : nat -> GenerateTestRequest -> exchange)
    (save_ok : nat -> bool) (save_left : nat -> option sheet -> option sheet)
    (Rel : string -> string -> option string)
    (rootDir : string) (root : node) (on_disk : option sheet) :
  (blocked root = true ->
   Walk rootDir root = None /\
   main now service save_ok save_left Rel rootDir root on_disk = None) /\
  (blocked root = false -> exists goFiles, Walk rootDir root = Some goFiles) /\
  (forall (path name : string) (pre post : list node) (bad : node)
          (goFiles : list string),
     skipped_name name = false -> blocked bad = true ->
     fst (walk path (Dir name true (pre ++ bad :: post)) goFiles) = WalkErr /\
     walk path (Dir name true (pre ++ bad :: post)) goFiles
     = walk path (Dir name true (pre ++ [bad])) goFiles).
Proof.
  destruct (walk_blocked root rootDir []) as [Herr _].
  split; [|split].
  - intros Hb. apply Herr in Hb.
    assert (HW : Walk rootDir root = None).
    { unfold Walk. destruct (walk rootDir root []) as [[| |] g];
        [discriminate Hb | discriminate Hb | reflexivity]. }
    split; [exact HW|]. unfold main. now rewrite HW.
  - intros Hb. unfold Walk.
    destruct (walk rootDir root []) as [[| |] g]; cbn [fst] in Herr; eauto.
    rewrite (proj1 Herr eq_refl) in Hb. discriminate Hb.
  - intros path name pre post bad goFiles Hname Hbad.
    assert (Heq : walk path (Dir name true (pre ++ bad :: post)) goFiles
                  = walk path (Dir name true (pre ++ [bad])) goFiles).
    { cbn [walk negb]. rewrite walk_fn_dir, Hname.
      rewrite !walk_entries_app.
      destruct (walk_entries walk path pre goFiles) as [[| |] g1]; try reflexivity.
      cbn [walk_entries].
      destruct (walk_blocked bad (Filepath.Join path (node_name bad)) g1) as [Hb _].
      apply Hb in Hbad.
      destruct (walk (Filepath.Join path (node_name bad)) bad g1) as [[| |] g2];
        [discriminate Hbad | discriminate Hbad | reflexivity]. }
    split; [|exact Heq].
    apply (walk_blocked (Dir name true (pre ++ bad :: post))).
    cbn [blocked negb orb]. rewrite Hname. cbn [negb andb].
    rewrite existsb_app. cbn [existsb]. rewrite Hbad. now rewrite orb_true_r.
Qed.

Lemma walk_error_stops_main_witness :
  let root := Dir "p" true
                [File "a.py";
                 Dir "app" true [File "m.py"; Dir "venv" false []; File "z.py"];
                 File "b.py"] in
  blocked root = true /\
  main demo_now demo_service demo_save demo_left demo_Rel "/p" root None = None.
Proof.
  split; [reflexivity|].
  exact (proj2 (proj1 (walk_error_stops_main demo_now demo_service demo_save
                         demo_left demo_Rel "/p"
                         (Dir "p" true
                            [File "a.py";
                             Dir "app" true
                               [File "m.py"; Dir "venv" false []; File "z.py"];
                             File "b.py"]) None) eq_refl)).
Defined.

(** ** The sheet and the counters of a run *)

Lemma set_row_lookup (r : nat) (data : list cell) : forall (col i : nat) (sh : sheet) v,
  data !! i = Some v -> set_row r col data sh !! ((col + i)%nat, r) = Some v.
Proof.
  induction data as [|x data IH]; intros col i sh v Hi; [discriminate|].
  destruct i as [|i].
  - injection Hi as ->. rewrite Nat.add_0_r. apply set_row_first.
  - cbn [set_row]. replace (col + S i)%nat with (S col + i)%nat by lia.
    now apply IH.
Qed.

Section DriverAccounts.

Variable now : nat -> Z.
Variable service : nat -> GenerateTestRequest -> exchange.
Variable save_ok : nat -> bool.
Variable save_left : nat -> option sheet -> option sheet.
Variable Rel : string -> string -> option string.

Local Abbreviation body := (main_body now service save_ok save_left Rel).
Local Abbreviation loop := (main_loop now service save_ok save_left Rel).

(** The three ways in which an iteration ends, with all it changes. *)
Lemma main_body_cases rootDir file st :
  (exists metrics, outcome service rootDir file st = Ok metrics /\
     body rootDir file st
     = ({| row := S (row st);
           excelFile :=
             set_row (row st) 0
               (record_cells (match Rel rootDir file with Some rel => rel | None => file end)
                  metrics (now (S (ticks st)) - now (ticks st))
                  (now (ticks st)) (now (S (ticks st))))
               (excelFile st);
           saved :=
             if save_ok (saves st)
             then Some (set_row (row st) 0
                          (record_cells
                             (match Rel rootDir file with Some rel => rel | None => file end)
                             metrics (now (S (ticks st)) - now (ticks st))
                             (now (ticks st)) (now (S (ticks st))))
                          (excelFile st))
             else save_left (saves st) (saved st);
           stdout := ((stdout st ++ [Processing file (now (ticks st))])
                      ++ [Finished file (now (S (ticks st)))
                            (now (S (ticks st)) - now (ticks st))])
                     ++ [if save_ok (saves st) then SavedProgress file
                         else FailedSave file];
           ticks := S (S (ticks st)); calls := S (calls st);
           saves := S (saves st) |}, Continue)) \/
  (exists e, outcome service rootDir file st = Err e /\
     body rootDir file st
     = ({| row := row st; excelFile := excelFile st; saved := saved st;
           stdout := (stdout st ++ [Processing file (now (ticks st))])
                     ++ [FailedRequest file e];
           ticks := S (ticks st); calls := S (calls st); saves := saves st |},
        Continue)) \/
  (outcome service rootDir file st = Panic /\
   body rootDir file st
   = ({| row := row st; excelFile := excelFile st; saved := saved st;
         stdout := stdout st ++ [Processing file (now (ticks st))];
         ticks := S (ticks st); calls := S (calls st); saves := saves st |},
      Crash)).
Proof.
  destruct (outcome service rootDir file st) as [metrics|e|] eqn:Ho.
  - left. exists metrics. split; [reflexivity|].
    exact (main_body_succeeded _ _ _ _ _ _ _ _ _ Ho).
  - right; left. exists e. split; [reflexivity|].
    exact (main_body_failed _ _ _ _ _ _ _ _ _ Ho).
  - right; right. split; [reflexivity|]. revert Ho.
    unfold outcome, main_body, measureDuration. simpl. now intros ->.
Qed.

Lemma main_body_keeps_rows rootDir file st c r :
  (r < row st)%nat ->
  excelFile (fst (body rootDir file st)) !! (c, r) = excelFile st !! (c, r).
Proof.
  intros Hr.
  destruct (main_body_cases rootDir file st)
    as [(m & _ & ->) | [(e & _ & ->) | (_ & ->)]]; fields; try reflexivity.
  apply set_row_other. lia.
Qed.

Lemma main_loop_keeps_rows rootDir goFiles : forall st c r,
  (r < row st)%nat ->
  excelFile (fst (loop rootDir goFiles st)) !! (c, r) = excelFile st !! (c, r).
Proof.
  induction goFiles as [|file rest IH]; intros st c r Hr; [reflexivity|].
  cbn [main_loop].
  pose proof (main_body_keeps_rows rootDir file st c r Hr) as Hb.
  pose proof (main_body_rows now service save_ok save_left Rel rootDir file st) as (Hrow & _).
  destruct (body rootDir file st) as [st1 [|]]; simpl in *; [|exact Hb].
  rewrite IH by lia. exact Hb.
Qed.

End DriverAccounts.

(** X11: a run never overwrites a row that lies above the cursor it
    started from: the header row and the records of earlier files keep
    every cell, whatever the later files do. *)
Theorem rows_never_overwritten
    (now : nat -> Z) (service : nat -> GenerateTestRequest -> exchange)
    (save_ok : nat -> bool) (save_left : nat -> option sheet -> option sheet)
    (Rel : string -> string -> option string)
    (rootDir : string) (goFiles : list string) (st : process) (c r : nat) :
  (r < row st)%nat ->
  excelFile (fst (main_loop now service save_ok save_left Rel rootDir goFiles st)) !! (c, r)
  = excelFile st !! (c, r).
Proof. apply main_loop_keeps_rows. Qed.

Lemma rows_never_overwritten_witness :
  excelFile (fst (main_loop demo_now demo_service demo_save demo_left demo_Rel "/p"
                    ["/p/a.py"; "/p/b.py"; "/p/c.py"] (initial_run 1 None)))
    !! (0%nat, 1%nat)
  = Some (CString "Filepath").
Proof.
  rewrite (rows_never_overwritten demo_now demo_service demo_save demo_left demo_Rel "/p"
             ["/p/a.py"; "/p/b.py"; "/p/c.py"] (initial_run 1 None) 0 1);
    [reflexivity | simpl; lia].
Defined.

(** X12: the record of a file whose request succeeded stands in the row
    the cursor was on, and stays there to the end of the run: the relative
    name (the full path when none is found), the five metrics that
    [sendRequest] returned, the difference of the two readings of the
    clock taken around the request, and those two readings. *)
Theorem record_is_kept
    (now : nat -> Z) (service : nat -> GenerateTestRequest -> exchange)
    (save_ok : nat -> bool) (save_left : nat -> option sheet -> option sheet)
    (Rel : string -> string -> option string)
    (rootDir file : string) (rest : list string) (st : process) (metrics : Metrics)
    (i : nat) (v : cell) :
  outcome service rootDir file st = Ok metrics ->
  record_cells (match Rel rootDir file with Some rel => rel | None => file end)
    metrics (now (S (ticks st)) - now (ticks st)) (now (ticks st)) (now (S (ticks st)))
    !! i = Some v ->
  excelFile (fst (main_loop now service save_ok save_left Rel rootDir (file :: rest) st))
    !! (i, row st) = Some v.
Proof.
  intros Hok Hv. cbn [main_loop].
  rewrite (main_body_succeeded _ _ _ _ _ _ _ _ _ Hok). cbv zeta.
  rewrite main_loop_keeps_rows by (simpl; lia).
  cbn [excelFile]. exact (set_row_lookup _ _ 0%nat i _ v Hv).
Qed.

Lemma record_is_kept_witness :
  excelFile (fst (main_loop demo_now demo_service demo_save demo_left demo_Rel "/p"
                    ["/p/b.py"; "/p/a.py"; "/p/c.py"] (initial_run 1 None)))
    !! (6%nat, 2%nat)
  = Some (CDuration 5).
Proof.
  refine (record_is_kept demo_now demo_service demo_save demo_left demo_Rel "/p" "/p/b.py"
             ["/p/a.py"; "/p/c.py"] (initial_run 1 None) _ 6 (CDuration 5) eq_refl _).
  reflexivity.
Defined.

Section DriverRuns.

Variable now : nat -> Z.
Variable service : nat -> GenerateTestRequest -> exchange.
Variable save_ok : nat -> bool.
Variable save_left : nat -> option sheet -> option sheet.
Variable Rel : string -> string -> option string.

Local Abbreviation body := (main_body now service save_ok save_left Rel).
Local Abbreviation loop := (main_loop now service save_ok save_left Rel).

(** X13: a run sends one request for each file that it reaches, in the
    order of the list, and announces each of them once: no file is tried
    twice and none is passed over.  The clock is read once for each of
    these files and once more for each record.  When the loop comes to its
    end, every file of the list has been reached. *)
Theorem one_request_per_file rootDir goFiles : forall st,
  exists k,
    (k <= length goFiles)%nat /\
    calls (fst (main_loop now service save_ok save_left Rel rootDir goFiles st)) = (calls st + k)%nat /\
    processing_files (stdout (fst (main_loop now service save_ok save_left Rel rootDir goFiles st)))
    = (processing_files (stdout st) ++ firstn k goFiles)%list /\
    (ticks (fst (main_loop now service save_ok save_left Rel rootDir goFiles st)) + row st
     = ticks st + k + row (fst (main_loop now service save_ok save_left Rel rootDir goFiles st)))%nat /\
    (snd (main_loop now service save_ok save_left Rel rootDir goFiles st) = Continue -> k = length goFiles).
Proof.
  induction goFiles as [|file rest IH]; intros st.
  - exists 0%nat. simpl. rewrite app_nil_r. repeat split; lia.
  - cbn [main_loop].
    destruct (main_body_cases now service save_ok save_left Rel rootDir file st)
      as [(m & _ & ->) | [(e & _ & ->) | (_ & ->)]].
    + match goal with |- context [main_loop _ _ _ _ _ _ _ ?s] => specialize (IH s) end.
      destruct IH as (k & Hk & Hc & Hp & Ht & Hend). exists (S k).
      rewrite Hc, Hp. revert Ht. fields. intros Ht.
      rewrite !processing_files_app.
      split; [simpl; lia|]. split; [lia|]. split; [|split].
      * destruct (save_ok (saves st)); simpl; now rewrite !app_nil_r, <- app_assoc.
      * lia.
      * intros H. simpl. now rewrite (Hend H).
    + match goal with |- context [main_loop _ _ _ _ _ _ _ ?s] => specialize (IH s) end.
      destruct IH as (k & Hk & Hc & Hp & Ht & Hend). exists (S k).
      rewrite Hc, Hp. revert Ht. fields. intros Ht.
      rewrite !processing_files_app.
      split; [simpl; lia|]. split; [lia|]. split; [|split].
      * simpl. now rewrite !app_nil_r, <- app_assoc.
      * lia.
      * intros H. simpl. now rewrite (Hend H).
    + exists 1%nat. fields. rewrite processing_files_app.
      split; [simpl; lia|]. split; [lia|]. split; [reflexivity|].
      split; [lia | discriminate].
Qed.

(** X15: a run in which no record was written leaves the sheet and the
    saved file untouched and never calls [SaveAs]: when every request
    fails, or there is no file at all, no report file is produced. *)
Theorem no_record_no_report rootDir goFiles : forall st,
  row (fst (main_loop now service save_ok save_left Rel rootDir goFiles st)) = row st ->
  excelFile (fst (main_loop now service save_ok save_left Rel rootDir goFiles st)) = excelFile st /\
  saved (fst (main_loop now service save_ok save_left Rel rootDir goFiles st)) = saved st /\
  saves (fst (main_loop now service save_ok save_left Rel rootDir goFiles st)) = saves st.
Proof.
  induction goFiles as [|file rest IH]; intros st; [now simpl|].
  cbn [main_loop].
  destruct (main_body_cases now service save_ok save_left Rel rootDir file st)
    as [(m & _ & ->) | [(e & _ & ->) | (_ & ->)]].
  - match goal with |- context [main_loop _ _ _ _ _ _ _ ?s] =>
      pose proof (main_loop_rows now service save_ok save_left Rel rootDir rest s) as (Hrow & _)
    end.
    revert Hrow. fields. intros Hrow Heq. lia.
  - match goal with |- context [main_loop _ _ _ _ _ _ _ ?s] => specialize (IH s) end.
    revert IH. fields. auto.
  - fields. auto.
Qed.

Lemma main_loop_keeps_durable rootDir goFiles : forall st,
  (forall n, save_ok n = true) ->
  saved st = Some (excelFile st) ->
  saved (fst (loop rootDir goFiles st)) = Some (excelFile (fst (loop rootDir goFiles st))).
Proof.
  induction goFiles as [|file rest IH]; intros st Hsave Hst; [exact Hst|].
  cbn [main_loop].
  destruct (main_body_cases now service save_ok save_left Rel rootDir file st)
    as [(m & _ & ->) | [(e & _ & ->) | (_ & ->)]].
  - apply IH; [exact Hsave|]. fields. now rewrite Hsave.
  - apply IH; [exact Hsave|]. fields. exact Hst.
  - fields. exact Hst.
Qed.

(** X16: as long as every [SaveAs] succeeds, the saved file holds the
    whole sheet at the end of a run that wrote a record, also when the
    run ends in a panic or when requests failed after the last record. *)
Theorem saved_file_is_complete rootDir goFiles : forall st,
  (forall n, save_ok n = true) ->
  row (fst (main_loop now service save_ok save_left Rel rootDir goFiles st)) = row st \/
  saved (fst (main_loop now service save_ok save_left Rel rootDir goFiles st)) = Some (excelFile (fst (main_loop now service save_ok save_left Rel rootDir goFiles st))).
Proof.
  induction goFiles as [|file rest IH]; intros st Hsave; [now left|].
  cbn [main_loop].
  destruct (main_body_cases now service save_ok save_left Rel rootDir file st)
    as [(m & _ & ->) | [(e & _ & ->) | (_ & ->)]].
  - right. apply main_loop_keeps_durable; [exact Hsave|]. fields. now rewrite Hsave.
  - match goal with |- context [main_loop _ _ _ _ _ _ _ ?s] => specialize (IH s Hsave) end.
    revert IH. fields. auto.
  - left. reflexivity.
Qed.

End DriverRuns.

(** X14: when the request of a file panics, the run ends there: the file
    has been announced, the files after it are not, and the sheet, the row
    cursor and the saved file are as the earlier files left them. *)
Theorem panic_ends_the_run
    (now : nat -> Z) (service : nat -> GenerateTestRequest -> exchange)
    (save_ok : nat -> bool) (save_left : nat -> option sheet -> option sheet)
    (Rel : string -> string -> option string)
    (rootDir file : string) (post : list string) (st : process) :
  outcome service rootDir file st = Panic ->
  main_loop now service save_ok save_left Rel rootDir (file :: post) st
  = ({| row := row st; excelFile := excelFile st; saved := saved st;
        stdout := stdout st ++ [Processing file (now (ticks st))];
        ticks := S (ticks st); calls := S (calls st); saves := saves st |},
     Crash).
Proof.
  intros Hp. cbn [main_loop].
  destruct (main_body_cases now service save_ok save_left Rel rootDir file st)
    as [(m & Hm & _) | [(e & He & _) | (_ & ->)]]; [congruence | congruence | reflexivity].
Qed.

Lemma panic_ends_the_run_witness :
  let run := main_loop demo_now demo_service_bare demo_save demo_left demo_Rel "/p"
               ["/p/b.py"; "/p/d.py"] (initial_run 1 None) in
  outcome demo_service_bare "/p" "/p/b.py" (initial_run 1 None) = Panic /\
  snd run = Crash /\ processing_files (stdout (fst run)) = ["/p/b.py"] /\
  row (fst run) = 2%nat /\ saved (fst run) = None.
Proof.
  cbv zeta. split; [reflexivity|].
  rewrite (panic_ends_the_run demo_now demo_service_bare demo_save demo_left demo_Rel
             "/p" "/p/b.py" ["/p/d.py"] (initial_run 1 None) eq_refl).
  repeat split; reflexivity.
Defined.

Lemma no_record_no_report_witness :
  let st' := fst (main_loop demo_now demo_service_down demo_save demo_left demo_Rel "/p"
                    ["/p/a.py"; "/p/b.py"] (initial_run 1 None)) in
  row st' = 2%nat /\ saved st' = None /\ saves st' = 0%nat.
Proof.
  split; [reflexivity|].
  destruct (no_record_no_report demo_now demo_service_down demo_save demo_left demo_Rel
              "/p" ["/p/a.py"; "/p/b.py"] (initial_run 1 None) eq_refl)
    as (_ & H2 & H3).
  split; assumption.
Defined.

Lemma saved_file_is_complete_witness :
  let st' := fst (main_loop demo_now demo_service demo_save demo_left demo_Rel "/p"
                    ["/p/b.py"; "/p/a.py"] (initial_run 1 None)) in
  row st' = 3%nat /\ saved st' = Some (excelFile st').
Proof.
  split; [reflexivity|].
  destruct (saved_file_is_complete demo_now demo_service demo_save demo_left demo_Rel "/p"
              ["/p/b.py"; "/p/a.py"] (initial_run 1 None) (fun _ => eq_refl))
    as [H|H]; [vm_compute in H; discriminate H | exact H].
Defined.
